(** * Pebble: the base pool ([pebble/pool/base_pool.py])

    A shallow embedding of [BasePool], [PoolContext], [Task] and
    [run_initializer], and the properties of the pool's state machine,
    task admission and shutdown.

    Conventions of the embedding.
    - A method of [BasePool] is a computation in the monad [M]: it reads and
      writes a [World] (the pool object together with the part of the
      interpreter the pool touches) and either returns a value or raises a
      Python exception.  A write performed before a [raise] stays visible.
    - What the code reads from outside its own thread is an explicit
      argument: [is_alive] of the supervisor threads, [time.time()], and the
      count of unfinished tasks that the consumers leave in the queue.
    - Clock readings and timeouts are rationals. *)

From Stdlib Require Import String List ZArith QArith Bool Arith Lia.
Import ListNotations.
Local Open Scope nat_scope.
Local Open Scope list_scope.

(** ** Python values and exceptions *)

(** The values that travel through the pool untouched: callables are
    referred to by name, argument lists and keyword dictionaries are data. *)
#[local] Unset Elimination Schemes.
Inductive PyObj : Type :=
| PyNone
| PyInt (z : Z)
| PyStr (s : string)
| PyFunc (qualname : string)
| PyTuple (items : list PyObj)
| PyDict (items : list (string * PyObj)).
#[local] Set Elimination Schemes.

(** The exceptions the module raises, any other instance of [Exception],
    and the exceptions outside [Exception] ([SystemExit],
    [KeyboardInterrupt], [GeneratorExit]). *)
Inductive PyExc : Type :=
| RuntimeError (msg : string)
| TimeoutError (msg : string)
| NotImplementedError (msg : string)
| OtherException (cls msg : string)
| NonException (cls : string).

(** [isinstance(e, Exception)]. *)
Definition is_Exception (e : PyExc) : bool :=
  match e with
  | NonException _ => false
  | _ => true
  end.

(** The error kinds of the specification are told apart by their message. *)
Definition PoolError : PyExc := RuntimeError "Unexpected error within the Pool".
Definition PoolNotActive : PyExc := RuntimeError "The Pool is not active".
Definition PoolStillRunning : PyExc := RuntimeError "The Pool is still running".
Definition TimedOut : PyExc := TimeoutError "Tasks are still being executed".

Inductive Result (A : Type) : Type :=
| Return (a : A)
| Raise (e : PyExc).
Arguments Return {A} a.
Arguments Raise {A} e.

(** ** Pool states *)

Inductive PoolState : Type := CREATED | RUNNING | CLOSED | STOPPED | ERROR.

(** The integer constants at the end of the module. *)
Definition state_code (s : PoolState) : Z :=
  match s with
  | CREATED => 0
  | RUNNING => 1
  | CLOSED => 2
  | STOPPED => 3
  | ERROR => 4
  end%Z.

(** [==] on pool states is [==] on their codes. *)
Definition state_eqb (a b : PoolState) : bool :=
  Z.eqb (state_code a) (state_code b).

(** [s in (a, b)]. *)
Definition state_in (s : PoolState) (l : list PoolState) : bool :=
  existsb (state_eqb s) l.

(** ** Futures, tasks and the queue *)

Module Future.
(** The states of [concurrent.futures.Future]; [Future()] is [PENDING]. *)
Inductive state : Type :=
| PENDING
| RUNNING
| CANCELLED
| CANCELLED_AND_NOTIFIED
| FINISHED.
End Future.

(** A reference to a [Future] object: its address in [futures]. *)
Definition FutureRef : Type := nat.

Record TaskPayload : Type := mkTaskPayload {
  function : PyObj;
  args : PyObj;
  kwargs : PyObj
}.

Record Worker : Type := mkWorker {
  max_tasks : nat;
  initializer : PyObj;
  initargs : PyObj
}.

Record Task : Type := mkTask {
  id : nat;
  future : FutureRef;
  timeout : Q;
  payload : TaskPayload;
  timestamp : Q;
  worker_id : nat
}.

(** [Task.__init__]. *)
Definition Task__init__ (identifier : nat) (future : FutureRef) (timeout : Q)
  (payload : TaskPayload) : Task :=
  {| id := identifier;
     future := future;
     timeout := timeout;
     payload := payload;
     timestamp := 0%Q;
     worker_id := 0 |}.

(** [a > b] on clock readings. *)
Definition Qgtb (a b : Q) : bool := negb (Qle_bool a b).

(** [Task.started]. *)
Definition started (t : Task) : bool := Qgtb (timestamp t) 0%Q.

(** [queue.Queue()]: an unbounded FIFO and the counter of the tasks put and
    not yet marked done. *)
Record Queue : Type := mkQueue {
  queue : list Task;
  unfinished_tasks : nat
}.

Definition Queue__init__ : Queue := {| queue := []; unfinished_tasks := 0 |}.

(** [Queue.put]: append at the tail, count one more unfinished task. *)
Definition Queue_put (t : Task) (q : Queue) : Queue :=
  {| queue := queue q ++ [t]; unfinished_tasks := S (unfinished_tasks q) |}.

(** ** The pool context and the pool *)

(** The supervisor threads kept in [BasePool._loops]. *)
Inductive Loop : Type := TaskManagerLoop | WorkerManagerLoop.

Record PoolContext : Type := mkPoolContext {
  state : PoolState;
  task_queue : Queue;
  workers : nat;
  task_counter : nat;
  worker_parameters : Worker
}.

(** [PoolContext.__init__]; [count()] starts at 0. *)
Definition PoolContext__init__ (max_workers max_tasks : nat)
  (initializer initargs : PyObj) : PoolContext :=
  {| state := CREATED;
     task_queue := Queue__init__;
     workers := max_workers;
     task_counter := 0;
     worker_parameters := mkWorker max_tasks initializer initargs |}.

(** [PoolContext.alive]. *)
Definition alive (c : PoolContext) : bool :=
  negb (state_in (state c) [ERROR; STOPPED]).

Record BasePool : Type := mkBasePool {
  _context : PoolContext;
  _loops : list Loop;
  _task_counter : nat
}.

(** [BasePool.__init__]. *)
Definition BasePool__init__ (max_workers max_tasks : nat)
  (initializer initargs : PyObj) : BasePool :=
  {| _context := PoolContext__init__ max_workers max_tasks initializer initargs;
     _loops := [];
     _task_counter := 0 |}.

(** The pool object, the [Future] objects allocated so far, and the number
    of worker processes running. *)
Record World : Type := mkWorld {
  self : BasePool;
  futures : list Future.state;
  live_workers : nat
}.

Definition new_world (p : BasePool) : World :=
  {| self := p; futures := []; live_workers := 0 |}.

Definition pool_state (w : World) : PoolState := state (_context (self w)).
Definition pool_queue (w : World) : Queue := task_queue (_context (self w)).

Definition with_context (f : PoolContext -> PoolContext) (w : World) : World :=
  {| self := {| _context := f (_context (self w));
                _loops := _loops (self w);
                _task_counter := _task_counter (self w) |};
     futures := futures w;
     live_workers := live_workers w |}.

(** [self._context.state = s]. *)
Definition assign_state (s : PoolState) : World -> World :=
  with_context (fun c =>
    {| state := s;
       task_queue := task_queue c;
       workers := workers c;
       task_counter := task_counter c;
       worker_parameters := worker_parameters c |}).

Definition assign_queue (q : Queue) : World -> World :=
  with_context (fun c =>
    {| state := state c;
       task_queue := q;
       workers := workers c;
       task_counter := task_counter c;
       worker_parameters := worker_parameters c |}).

(** ** The monad of pool methods *)

Definition M (A : Type) : Type := World -> Result A * World.

Definition ret {A : Type} (a : A) : M A := fun w => (Return a, w).

Definition raise {A : Type} (e : PyExc) : M A := fun w => (Raise e, w).

Definition bind {A B : Type} (m : M A) (k : A -> M B) : M B :=
  fun w =>
    match m w with
    | (Return a, w') => k a w'
    | (Raise e, w') => (Raise e, w')
    end.

Definition get : M World := fun w => (Return w, w).

Definition modify (f : World -> World) : M unit := fun w => (Return tt, f w).

Declare Scope pool_scope.
Delimit Scope pool_scope with pool.
Notation "x <- m ;; k" := (bind m (fun x => k))
  (at level 61, m at next level, right associativity) : pool_scope.
Notation "m ;; k" := (bind m (fun _ => k))
  (at level 61, right associativity) : pool_scope.
Local Open Scope pool_scope.

(** [for x in l: body(x)]. *)
Fixpoint for_each {A : Type} (l : list A) (body : A -> M unit) : M unit :=
  match l with
  | [] => ret tt
  | x :: rest => body x ;; for_each rest body
  end.

(** [Future()]: a new object in state [PENDING]. *)
Definition Future__init__ : M FutureRef :=
  fun w =>
    (Return (length (futures w)),
     {| self := self w;
        futures := futures w ++ [Future.PENDING];
        live_workers := live_workers w |}).

(** [next(self._task_counter)]. *)
Definition next_task_counter : M nat :=
  fun w =>
    (Return (_task_counter (self w)),
     {| self := {| _context := _context (self w);
                   _loops := _loops (self w);
                   _task_counter := S (_task_counter (self w)) |};
        futures := futures w;
        live_workers := live_workers w |}).

(** [self._context.task_queue.put(task)]. *)
Definition task_queue_put (t : Task) : M unit :=
  modify (fun w => assign_queue (Queue_put t (pool_queue w)) w).

(** ** The methods of [BasePool] *)

(** Modelled from the spec: [BasePool._start_pool] is abstract (it raises
    [NotImplementedError]) and the subclass that overrides it is not part of
    the sources.  The specification's transition table gives
    "CREATED, first schedule or active query: RUNNING (spawns loops and
    workers)", its concurrency model names the Task Manager and the Worker
    Manager loops, and [ensure_workers] spawns up to [max_workers]
    workers. *)
Definition _start_pool : M unit :=
  modify (fun w =>
    assign_state RUNNING
      {| self := {| _context := _context (self w);
                    _loops := [TaskManagerLoop; WorkerManagerLoop];
                    _task_counter := _task_counter (self w) |};
         futures := futures w;
         live_workers := workers (_context (self w)) |}).

(** Modelled from the spec: [BasePool._stop_pool] is abstract and its
    override is not part of the sources.  The specification has [stop_all]
    stop every worker ("after stop(); join() the worker set is empty") and
    gives it no transition of the state machine. *)
Definition _stop_pool : M unit :=
  modify (fun w =>
    {| self := self w; futures := futures w; live_workers := 0 |}).

(** [BasePool._update_pool_state]; [is_alive] is what [loop.is_alive()]
    answers during this refresh. *)
Definition _update_pool_state (is_alive : Loop -> bool) : M unit :=
  w <- get ;;
  (if state_eqb (pool_state w) CREATED then _start_pool else ret tt) ;;
  w <- get ;;
  for_each (_loops (self w)) (fun loop =>
    if negb (is_alive loop) then modify (assign_state ERROR) else ret tt).

(** [BasePool._check_pool_state]. *)
Definition _check_pool_state (is_alive : Loop -> bool) : M unit :=
  _update_pool_state is_alive ;;
  w <- get ;;
  if state_eqb (pool_state w) ERROR then
    raise (RuntimeError "Unexpected error within the Pool")
  else if negb (state_eqb (pool_state w) RUNNING) then
    raise (RuntimeError "The Pool is not active")
  else ret tt.

(** [BasePool.schedule]. *)
Definition schedule (is_alive : Loop -> bool)
  (function args kwargs : PyObj) (timeout : Q) : M FutureRef :=
  _check_pool_state is_alive ;;
  future <- Future__init__ ;;
  let payload := mkTaskPayload function args kwargs in
  identifier <- next_task_counter ;;
  let task := Task__init__ identifier future timeout payload in
  task_queue_put task ;;
  ret future.

(** [BasePool.active]. *)
Definition active (is_alive : Loop -> bool) : M bool :=
  _update_pool_state is_alive ;;
  w <- get ;;
  ret (state_in (pool_state w) [CLOSED; RUNNING]).

(** [BasePool.close]. *)
Definition close : M unit := modify (assign_state CLOSED).

(** [BasePool.stop]. *)
Definition stop : M unit := modify (assign_state STOPPED).

(** What one turn of the loop of [_wait_queue_depletion] reads from outside
    its thread: the liveness of the supervisor threads, the clock, and the
    queue's count of unfinished tasks as the consumers have left it. *)
Record Poll : Type := mkPoll {
  is_alive : Loop -> bool;
  now : Q;
  unfinished : nat
}.

(** The readings of one call of [_wait_queue_depletion]: the clock when it
    is entered, then one [Poll] for each turn of its loop. *)
Record Wait : Type := mkWait {
  tick : Q;
  polls : list Poll
}.

(** The consumers' [task_done] calls show in the queue's counter. *)
Definition consumers_left (n : nat) : M unit :=
  modify (fun w =>
    assign_queue {| queue := queue (pool_queue w); unfinished_tasks := n |} w).

(** [timeout is not None and now - tick > timeout]. *)
Definition expired (timeout : option Q) (tick now : Q) : bool :=
  match timeout with
  | None => false
  | Some t => Qgtb (now - tick) t
  end.

(** The [while self.active:] loop of [_wait_queue_depletion].  [None] when
    the readings end while the loop still sleeps. *)
Fixpoint wait_loop (timeout : option Q) (tick : Q) (polls : list Poll)
  (w : World) : option (Result unit * World) :=
  match polls with
  | [] => None
  | p :: rest =>
      match (consumers_left (unfinished p) ;; active (is_alive p)) w with
      | (Raise e, w') => Some (Raise e, w')
      | (Return false, w') => Some (Return tt, w')
      | (Return true, w') =>
          if expired timeout tick (now p) then
            Some (Raise (TimeoutError "Tasks are still being executed"), w')
          else if negb (Nat.eqb (unfinished_tasks (pool_queue w')) 0) then
            wait_loop timeout tick rest w'
          else Some (Return tt, w')
      end
  end.

(** [BasePool._wait_queue_depletion]. *)
Definition _wait_queue_depletion (timeout : option Q) (env : Wait)
  : World -> option (Result unit * World) :=
  wait_loop timeout (tick env) (polls env).

(** [BasePool.join].  The recursive [self.join()] is given the readings
    that follow those of the wait; [None] when the readings end while the
    pool still waits. *)
Fixpoint join (timeout : option Q) (envs : list Wait) (w : World)
  : option (Result unit * World) :=
  if state_eqb (pool_state w) RUNNING then
    Some (Raise (RuntimeError "The Pool is still running"), w)
  else if state_eqb (pool_state w) CLOSED then
    match envs with
    | [] => None
    | env :: rest =>
        match _wait_queue_depletion timeout env w with
        | None => None
        | Some (Raise e, w') => Some (Raise e, w')
        | Some (Return _, w') => join None rest (snd (stop w'))
        end
    end
  else Some (_stop_pool w).

(** ** The methods over the hooks of a subclass *)

(** [BasePool._start_pool] and [BasePool._stop_pool] as the class itself
    has them. *)
Module Abstract.

Definition _start_pool : M unit :=
  raise (NotImplementedError "Not implemented").

Definition _stop_pool : M unit :=
  raise (NotImplementedError "Not implemented").

End Abstract.

(** The methods of [BasePool] for any pair of overriding hooks: a subclass
    may do anything to the world in [_start_pool] and [_stop_pool], and may
    raise. *)
Module Base.
Section Subclass.

Variable _start_pool : M unit.
Variable _stop_pool : M unit.

(** [BasePool._update_pool_state]. *)
Definition _update_pool_state (alive_now : Loop -> bool) : M unit :=
  w <- get ;;
  (if state_eqb (pool_state w) CREATED then _start_pool else ret tt) ;;
  w <- get ;;
  for_each (_loops (self w)) (fun loop =>
    if negb (alive_now loop) then modify (assign_state ERROR) else ret tt).

(** [BasePool._check_pool_state]. *)
Definition _check_pool_state (alive_now : Loop -> bool) : M unit :=
  _update_pool_state alive_now ;;
  w <- get ;;
  if state_eqb (pool_state w) ERROR then
    raise (RuntimeError "Unexpected error within the Pool")
  else if negb (state_eqb (pool_state w) RUNNING) then
    raise (RuntimeError "The Pool is not active")
  else ret tt.

(** [BasePool.schedule]. *)
Definition schedule (alive_now : Loop -> bool)
  (function args kwargs : PyObj) (timeout : Q) : M FutureRef :=
  _check_pool_state alive_now ;;
  future <- Future__init__ ;;
  let payload := mkTaskPayload function args kwargs in
  identifier <- next_task_counter ;;
  let task := Task__init__ identifier future timeout payload in
  task_queue_put task ;;
  ret future.

(** [BasePool.active]. *)
Definition active (alive_now : Loop -> bool) : M bool :=
  _update_pool_state alive_now ;;
  w <- get ;;
  ret (state_in (pool_state w) [CLOSED; RUNNING]).

(** The [while self.active:] loop of [_wait_queue_depletion]. *)
Fixpoint wait_loop (timeout : option Q) (tick : Q) (polls : list Poll)
  (w : World) : option (Result unit * World) :=
  match polls with
  | [] => None
  | p :: rest =>
      match (consumers_left (unfinished p) ;; active (is_alive p)) w with
      | (Raise e, w') => Some (Raise e, w')
      | (Return false, w') => Some (Return tt, w')
      | (Return true, w') =>
          if expired timeout tick (now p) then
            Some (Raise (TimeoutError "Tasks are still being executed"), w')
          else if negb (Nat.eqb (unfinished_tasks (pool_queue w')) 0) then
            wait_loop timeout tick rest w'
          else Some (Return tt, w')
      end
  end.

(** [BasePool._wait_queue_depletion]. *)
Definition _wait_queue_depletion (timeout : option Q) (env : Wait)
  : World -> option (Result unit * World) :=
  wait_loop timeout (tick env) (polls env).

(** [BasePool.join]. *)
Fixpoint join (timeout : option Q) (envs : list Wait) (w : World)
  : option (Result unit * World) :=
  if state_eqb (pool_state w) RUNNING then
    Some (Raise (RuntimeError "The Pool is still running"), w)
  else if state_eqb (pool_state w) CLOSED then
    match envs with
    | [] => None
    | env :: rest =>
        match _wait_queue_depletion timeout env w with
        | None => None
        | Some (Raise e, w') => Some (Raise e, w')
        | Some (Return _, w') => join None rest (snd (stop w'))
        end
    end
  else Some (_stop_pool w).

(** [BasePool.__exit__]: [self.close()] then [self.join()]; the arguments
    of the call are not looked at. *)
Definition __exit__ (envs : list Wait) (w : World)
  : option (Result unit * World) :=
  match close w with
  | (Raise e, w') => Some (Raise e, w')
  | (Return _, w') => join None envs w'
  end.

End Subclass.
End Base.

(** ** The initializer of a worker *)

(** What calling a Python callable does when it comes back. *)
Inductive Outcome : Type :=
| Completes (value : PyObj)
| Throws (e : PyExc).

(** [run_initializer].  [call f args g] is the interpreter running
    [f( *args)] from the globals [g]; [print_exc()] adds the caught
    exception to what the process has printed on its standard error. *)
Definition run_initializer {G : Type}
  (call : PyObj -> PyObj -> G -> Outcome * G)
  (initializer initargs : PyObj) (g : G) (stderr : list PyExc)
  : Result bool * (G * list PyExc) :=
  match call initializer initargs g with
  | (Completes _, g') => (Return true, (g', stderr))
  | (Throws e, g') =>
      if is_Exception e then (Return false, (g', stderr ++ [e]))
      else (Raise e, (g', stderr))
  end.

(** ** Sequences of calls on one pool *)

(** The public operations, each with the readings it makes. *)
Inductive Call : Type :=
| call_schedule (is_alive : Loop -> bool) (function args kwargs : PyObj)
    (timeout : Q)
| call_close
| call_stop
| call_join (timeout : option Q) (envs : list Wait)
| call_active (is_alive : Loop -> bool).

(** The world a call leaves, whether it returns or raises; [None] when the
    readings of a [join] end while it still waits. *)
Definition after (c : Call) (w : World) : option World :=
  match c with
  | call_schedule a f x k t => Some (snd (schedule a f x k t w))
  | call_close => Some (snd (close w))
  | call_stop => Some (snd (stop w))
  | call_join t envs => option_map snd (join t envs w)
  | call_active a => Some (snd (active a w))
  end.

Fixpoint after_all (cs : list Call) (w : World) : option World :=
  match cs with
  | [] => Some w
  | c :: rest =>
      match after c w with
      | None => None
      | Some w' => after_all rest w'
      end
  end.

(** The requests of successive [schedule] calls, and their results. *)
Record Request : Type := mkRequest {
  req_is_alive : Loop -> bool;
  req_function : PyObj;
  req_args : PyObj;
  req_kwargs : PyObj;
  req_timeout : Q
}.

Definition submit (r : Request) : M FutureRef :=
  schedule (req_is_alive r) (req_function r) (req_args r) (req_kwargs r)
    (req_timeout r).

Fixpoint submit_all (rs : list Request) (w : World)
  : list (Result FutureRef) * World :=
  match rs with
  | [] => ([], w)
  | r :: rest =>
      let (res, w') := submit r w in
      let (ress, w'') := submit_all rest w' in
      (res :: ress, w'')
  end.

Definition returned {A : Type} (r : Result A) : bool :=
  match r with
  | Return _ => true
  | Raise _ => false
  end.




(** ** Derived forms used in the statements *)

(** The first half of [_update_pool_state]. *)
Definition start_if_created (w : World) : World :=
  if state_eqb (pool_state w) CREATED then snd (_start_pool w) else w.

(** Every supervisor thread of the pool answers [is_alive() == True]. *)
Definition all_alive (is_alive : Loop -> bool) (w : World) : bool :=
  forallb is_alive (_loops (self w)).

(** The second half of [_update_pool_state]. *)
Definition mark_dead (is_alive : Loop -> bool) (w : World) : World :=
  if all_alive is_alive w then w else assign_state ERROR w.

(** The world a state refresh leaves. *)
Definition refresh (is_alive : Loop -> bool) (w : World) : World :=
  snd (_update_pool_state is_alive w).

(** A turn of the wait loop that sleeps: the pool is active, the timeout
    has not expired and tasks are unfinished. *)
Definition sleeps (timeout : option Q) (tick : Q) (loops : list Loop)
  (p : Poll) : bool :=
  forallb (is_alive p) loops
  && negb (expired timeout tick (now p))
  && negb (Nat.eqb (unfinished p) 0).

(** The world in which a turn of the wait loop makes its tests. *)
Definition polled (p : Poll) (w : World) : World :=
  refresh (is_alive p) (snd (consumers_left (unfinished p) w)).

(** The task that a successful [schedule] builds. *)
Definition scheduled_task (function args kwargs : PyObj) (timeout : Q)
  (w : World) : Task :=
  Task__init__ (_task_counter (self w)) (length (futures w)) timeout
    (mkTaskPayload function args kwargs).

(** The world a successful [schedule] leaves, from the refreshed world. *)
Definition enqueued (function args kwargs : PyObj) (timeout : Q)
  (w : World) : World :=
  snd ((future <- Future__init__ ;;
        identifier <- next_task_counter ;;
        task_queue_put
          (Task__init__ identifier future timeout
             (mkTaskPayload function args kwargs))) w).

(** [True] for every reading. *)
Definition everything_alive : Loop -> bool := fun _ => true.

(** The world [w'] has what [w] has and, after it, the tasks [tasks] at
    the tail of the queue, one new PENDING future for each of them, and
    their identifiers drawn from the task counter. *)
Definition extends_by (tasks : list Task) (w w' : World) : Prop :=
  queue (pool_queue w') = queue (pool_queue w) ++ tasks
  /\ futures w' = futures w ++ repeat Future.PENDING (length tasks)
  /\ _task_counter (self w') = _task_counter (self w) + length tasks
  /\ map id tasks = seq (_task_counter (self w)) (length tasks).

(** ** Pools used as examples *)

(** [ProcessPool(max_workers=2, initializer=initializer, initargs=[1])]
    right after its construction. *)
Definition fresh_pool : World :=
  new_world
    (BasePool__init__ 2 0 (PyFunc "initializer") (PyTuple [PyInt 1])).

Definition stopped_pool : World := snd (stop fresh_pool).

(** The same pool after a query of [active] with every loop alive. *)
Definition running_pool : World := snd (active (fun _ => true) fresh_pool).

(** The task manager's thread has died. *)
Definition task_manager_died (l : Loop) : bool :=
  match l with
  | TaskManagerLoop => false
  | WorkerManagerLoop => true
  end.

(** The running pool after a refresh that finds the dead thread. *)
Definition broken_pool : World := refresh task_manager_died running_pool.

(** The running pool after [close()]. *)
Definition draining_pool : World := snd (close running_pool).

(** Turns of the wait loop, all with the loops alive: at time 1 with two
    tasks unfinished, at time 2 with none, at time 6 with two. *)
Definition busy_poll : Poll := mkPoll everything_alive 1 2.
Definition idle_poll : Poll := mkPoll everything_alive 2 0.
Definition late_poll : Poll := mkPoll everything_alive 6 2.

(** The states from which no task is accepted any more. *)
Definition past_running (s : PoolState) : Prop :=
  s <> CREATED /\ s <> RUNNING.

(** The running pool after [stop()] and [join()]. *)
Definition joined_pool : World := snd (_stop_pool (snd (stop running_pool))).

(** The new pool after [stop()] and then [close()]. *)
Definition reclosed_pool : World := snd (close stopped_pool).

(** The functions of the test-suite, run by a worker whose only global is
    [initarg]: [initializer(value)] stores its argument,
    [broken_initializer()] raises [Exception("BOOM!")], [sys.exit] raises
    [SystemExit]. *)
Definition test_call (f args : PyObj) (initarg : Z) : Outcome * Z :=
  match f, args with
  | PyFunc "initializer", PyTuple [PyInt value] => (Completes PyNone, value)
  | PyFunc "broken_initializer", PyTuple [] =>
      (Throws (OtherException "Exception" "BOOM!"), initarg)
  | PyFunc "sys.exit", _ => (Throws (NonException "SystemExit"), initarg)
  | _, _ => (Throws (OtherException "TypeError" "bad call"), initarg)
  end.

(** * Properties *)

(** ** Pool states and the refresh *)

Lemma state_eqb_eq (a b : PoolState) : state_eqb a b = true <-> a = b.
Proof. destruct a, b; cbv; split; congruence. Qed.

Lemma state_eqb_neq (a b : PoolState) : state_eqb a b = false <-> a <> b.
Proof. destruct a, b; cbv; split; congruence. Qed.

Lemma Qgtb_lt (a b : Q) : Qgtb a b = true <-> (b < a)%Q.
Proof.
  unfold Qgtb. rewrite negb_true_iff.
  destruct (Qle_bool a b) eqn:E.
  - apply Qle_bool_iff in E. split; [discriminate | intro H].
    exfalso. exact (Qlt_not_le _ _ H E).
  - split; [intros _ | reflexivity].
    apply Qnot_le_lt. intro H. apply Qle_bool_iff in H. congruence.
Qed.

Lemma pool_state_assign (s : PoolState) (w : World) :
  pool_state (assign_state s w) = s.
Proof. reflexivity. Qed.

Lemma assign_state_twice (s t : PoolState) (w : World) :
  assign_state s (assign_state t w) = assign_state s w.
Proof. reflexivity. Qed.

Lemma for_each_loops (a : Loop -> bool) (l : list Loop) (w : World) :
  for_each l (fun loop =>
    if negb (a loop) then modify (assign_state ERROR) else ret tt) w
  = (Return tt, if forallb a l then w else assign_state ERROR w).
Proof.
  revert w. induction l as [|x l IH]; intro w; [reflexivity|].
  cbn [for_each forallb]. unfold bind at 1.
  destruct (a x); cbn [negb andb].
  - unfold ret at 1. apply IH.
  - unfold modify at 1. rewrite IH.
    destruct (forallb a l); reflexivity.
Qed.

Lemma update_pool_state_eq (a : Loop -> bool) (w : World) :
  _update_pool_state a w = (Return tt, mark_dead a (start_if_created w)).
Proof.
  unfold _update_pool_state, start_if_created, mark_dead, all_alive.
  unfold bind at 1, get at 1. unfold bind at 1.
  destruct (state_eqb (pool_state w) CREATED).
  - unfold _start_pool at 1, modify at 1.
    unfold bind at 1, get at 1. rewrite for_each_loops. reflexivity.
  - unfold ret at 1. unfold bind at 1, get at 1.
    rewrite for_each_loops. reflexivity.
Qed.

Lemma refresh_eq (a : Loop -> bool) (w : World) :
  refresh a w = mark_dead a (start_if_created w).
Proof. unfold refresh. rewrite update_pool_state_eq. reflexivity. Qed.

Lemma pool_state_started (w : World) :
  pool_state (start_if_created w)
  = match pool_state w with CREATED => RUNNING | s => s end.
Proof.
  unfold start_if_created. destruct (pool_state w) eqn:E; cbn; try exact E.
  reflexivity.
Qed.

Lemma pool_state_marked (a : Loop -> bool) (w : World) :
  pool_state (mark_dead a w) = if all_alive a w then pool_state w else ERROR.
Proof. unfold mark_dead. destruct (all_alive a w); reflexivity. Qed.

(** A refresh never leaves [CREATED], and leaves [RUNNING] only from
    [CREATED] or [RUNNING]. *)
Lemma refresh_state (a : Loop -> bool) (w : World) :
  pool_state (refresh a w)
  = if all_alive a (start_if_created w)
    then match pool_state w with CREATED => RUNNING | s => s end
    else ERROR.
Proof.
  rewrite refresh_eq, pool_state_marked, pool_state_started. reflexivity.
Qed.

(** The refresh writes the state, the loops and the workers only: what it
    leaves elsewhere is read off its four cases. *)
Ltac refresh_frame :=
  rewrite refresh_eq; unfold mark_dead, start_if_created;
  match goal with
  | |- context [state_eqb ?s CREATED] => destruct (state_eqb s CREATED)
  end;
  match goal with
  | |- context [all_alive ?a ?x] => destruct (all_alive a x)
  end;
  reflexivity.

Lemma refresh_queue (a : Loop -> bool) (w : World) :
  pool_queue (refresh a w) = pool_queue w.
Proof. refresh_frame. Qed.

Lemma refresh_futures (a : Loop -> bool) (w : World) :
  futures (refresh a w) = futures w.
Proof. refresh_frame. Qed.

Lemma refresh_task_counter (a : Loop -> bool) (w : World) :
  _task_counter (self (refresh a w)) = _task_counter (self w).
Proof. refresh_frame. Qed.

Lemma check_pool_state_eq (a : Loop -> bool) (w : World) :
  _check_pool_state a w
  = (match pool_state (refresh a w) with
     | ERROR => Raise PoolError
     | RUNNING => Return tt
     | _ => Raise PoolNotActive
     end, refresh a w).
Proof.
  unfold _check_pool_state, refresh. unfold bind at 1.
  rewrite update_pool_state_eq. cbn [snd].
  unfold bind at 1, get at 1.
  destruct (pool_state (mark_dead a (start_if_created w))); reflexivity.
Qed.

Lemma schedule_eq (a : Loop -> bool) (f x k : PyObj) (t : Q) (w : World) :
  schedule a f x k t w
  = match pool_state (refresh a w) with
    | ERROR => (Raise PoolError, refresh a w)
    | RUNNING =>
        (Return (length (futures w)), enqueued f x k t (refresh a w))
    | _ => (Raise PoolNotActive, refresh a w)
    end.
Proof.
  unfold schedule. unfold bind at 1. rewrite check_pool_state_eq.
  destruct (pool_state (refresh a w)) eqn:E; try reflexivity.
  rewrite <- (refresh_futures a w). reflexivity.
Qed.

Lemma enqueued_queue (f x k : PyObj) (t : Q) (w : World) :
  pool_queue (enqueued f x k t w)
  = Queue_put (scheduled_task f x k t w) (pool_queue w).
Proof. reflexivity. Qed.

Lemma enqueued_futures (f x k : PyObj) (t : Q) (w : World) :
  futures (enqueued f x k t w) = futures w ++ [Future.PENDING].
Proof. reflexivity. Qed.

Lemma enqueued_task_counter (f x k : PyObj) (t : Q) (w : World) :
  _task_counter (self (enqueued f x k t w)) = S (_task_counter (self w)).
Proof. reflexivity. Qed.

Lemma enqueued_state (f x k : PyObj) (t : Q) (w : World) :
  pool_state (enqueued f x k t w) = pool_state w.
Proof. reflexivity. Qed.

Lemma dead_loop (a : Loop -> bool) (w : World) (loop : Loop) :
  In loop (_loops (self w)) -> a loop = false -> all_alive a w = false.
Proof.
  intros Hin Hdead. unfold all_alive.
  destruct (forallb a (_loops (self w))) eqn:E; [|reflexivity].
  rewrite forallb_forall in E. rewrite (E loop Hin) in Hdead. discriminate.
Qed.

Lemma refresh_never_created (a : Loop -> bool) (w : World) :
  pool_state (refresh a w) <> CREATED.
Proof.
  rewrite refresh_state.
  destruct (all_alive a (start_if_created w)), (pool_state w); discriminate.
Qed.

Lemma refresh_error (a : Loop -> bool) (w : World) :
  pool_state w = ERROR -> pool_state (refresh a w) = ERROR.
Proof.
  intro H. rewrite refresh_state, H.
  destruct (all_alive a (start_if_created w)); reflexivity.
Qed.

(** ** Admission *)



Lemma active_eq (a : Loop -> bool) (w : World) :
  active a w
  = (Return (state_in (pool_state (refresh a w)) [CLOSED; RUNNING]),
     refresh a w).
Proof.
  unfold active, refresh. unfold bind at 1.
  rewrite update_pool_state_eq. reflexivity.
Qed.




(** C8: a refresh that finds a supervisor loop not alive leaves the pool
    in ERROR, whichever of [_update_pool_state], [_check_pool_state],
    [active] and [schedule] makes it; [_check_pool_state] and [schedule]
    then raise the pool error, and so does every [schedule] that follows
    on the refreshed pool, whatever the loops answer by then. *)
Theorem dead_loop_is_a_pool_error (a : Loop -> bool) (w : World)
  (loop : Loop) :
  In loop (_loops (self (start_if_created w))) ->
  a loop = false ->
  pool_state (snd (_update_pool_state a w)) = ERROR
  /\ pool_state (snd (active a w)) = ERROR
  /\ _check_pool_state a w = (Raise PoolError, refresh a w)
  /\ (forall f x k t,
        schedule a f x k t w = (Raise PoolError, refresh a w))
  /\ (forall a' f x k t,
        fst (schedule a' f x k t (refresh a w)) = Raise PoolError).
Proof.
  intros Hin Hdead.
  assert (E : pool_state (refresh a w) = ERROR).
  { rewrite refresh_state, (dead_loop a _ loop Hin Hdead). reflexivity. }
  split; [exact E|]. split; [rewrite active_eq; exact E|].
  split; [rewrite check_pool_state_eq, E; reflexivity|].
  split; intros.
  - rewrite schedule_eq, E. reflexivity.
  - rewrite schedule_eq, (refresh_error a' _ E). reflexivity.
Qed.

Lemma dead_loop_is_a_pool_error_witness :
  pool_state (snd (_update_pool_state task_manager_died running_pool)) = ERROR
  /\ fst (schedule everything_alive (PyFunc "function") (PyTuple [])
            (PyDict []) 0 (refresh task_manager_died running_pool))
     = Raise PoolError.
Proof.
  assert (Hin : In TaskManagerLoop
                  (_loops (self (start_if_created running_pool))))
    by (left; reflexivity).
  pose proof (dead_loop_is_a_pool_error task_manager_died running_pool
                TaskManagerLoop Hin eq_refl) as H.
  split; [apply H|]. apply H.
Defined.

(** ** Tasks *)

Lemma submit_all_cons (r : Request) (rs : list Request) (w : World) :
  submit_all (r :: rs) w
  = (fst (submit r w) :: fst (submit_all rs (snd (submit r w))),
     snd (submit_all rs (snd (submit r w)))).
Proof.
  cbn [submit_all]. destruct (submit r w) as [res w1]. cbn [fst snd].
  destruct (submit_all rs w1). reflexivity.
Qed.

Lemma submit_eq (r : Request) (w : World) :
  let w0 := refresh (req_is_alive r) w in
  submit r w
  = match pool_state w0 with
    | ERROR => (Raise PoolError, w0)
    | RUNNING =>
        (Return (length (futures w)),
         enqueued (req_function r) (req_args r) (req_kwargs r)
           (req_timeout r) w0)
    | _ => (Raise PoolNotActive, w0)
    end.
Proof. unfold submit. apply schedule_eq. Qed.




(** C7: a task is started exactly when its timestamp is greater than 0; a
    task as [Task.__init__] builds it, and so the task that [schedule]
    enqueues, has timestamp 0 and is not started. *)
Theorem started_iff_timestamp_positive (t : Task) :
  (started t = true <-> (0 < timestamp t)%Q)
  /\ (forall identifier fut tmo p,
        timestamp (Task__init__ identifier fut tmo p) = 0%Q
        /\ started (Task__init__ identifier fut tmo p) = false)
  /\ (forall f x k tmo w,
        timestamp (scheduled_task f x k tmo w) = 0%Q
        /\ started (scheduled_task f x k tmo w) = false).
Proof.
  split; [apply Qgtb_lt|]. split; intros; split; reflexivity.
Qed.

(** ** The pool context *)

(** C10: a context is alive exactly when its state is neither ERROR nor
    STOPPED.  A new context is CREATED with an empty queue: it is alive,
    its state is not one of those that [active] answers true for, and the
    first query of [active], with the spawned loops alive, answers true. *)
Theorem alive_iff_not_error_nor_stopped (c : PoolContext)
  (max_workers max_tasks : nat) (initializer initargs : PyObj) :
  (alive c = true <-> state c <> ERROR /\ state c <> STOPPED)
  /\ state (PoolContext__init__ max_workers max_tasks initializer initargs)
     = CREATED
  /\ task_queue (PoolContext__init__ max_workers max_tasks initializer initargs)
     = {| queue := []; unfinished_tasks := 0 |}
  /\ alive (PoolContext__init__ max_workers max_tasks initializer initargs)
     = true
  /\ state_in
       (state (PoolContext__init__ max_workers max_tasks initializer initargs))
       [CLOSED; RUNNING] = false
  /\ fst (active everything_alive
            (new_world
               (BasePool__init__ max_workers max_tasks initializer initargs)))
     = Return true.
Proof.
  split; [|repeat split].
  unfold alive. destruct (state c); cbv; split; try discriminate;
    try (intros [H1 H2]; congruence); try (intros _; split; discriminate);
    reflexivity.
Qed.

(** ** The initializer *)

(** C9: [run_initializer] returns True exactly when the call of the
    initializer completes, returns False exactly when the call raises an
    instance of [Exception] (which it prints), and never raises an
    instance of [Exception] itself. *)
Theorem run_initializer_catches_exceptions {G : Type}
  (call : PyObj -> PyObj -> G -> Outcome * G) (initializer initargs : PyObj)
  (g : G) (stderr : list PyExc) :
  (fst (run_initializer call initializer initargs g stderr) = Return true
   <-> exists v, fst (call initializer initargs g) = Completes v)
  /\ (fst (run_initializer call initializer initargs g stderr) = Return false
      <-> exists e, fst (call initializer initargs g) = Throws e
                    /\ is_Exception e = true)
  /\ (forall e, is_Exception e = true ->
        fst (run_initializer call initializer initargs g stderr) <> Raise e)
  /\ (forall e, fst (call initializer initargs g) = Throws e ->
        is_Exception e = true ->
        run_initializer call initializer initargs g stderr
        = (Return false, (snd (call initializer initargs g), stderr ++ [e]))).
Proof.
  unfold run_initializer.
  destruct (call initializer initargs g) as [[v | e] g']; cbn [fst snd].
  - split; [split; [intros _; exists v; reflexivity | reflexivity]|].
    split; [split; [discriminate | intros (e & H & _); discriminate]|].
    split; [discriminate | intros e H; discriminate].
  - destruct (is_Exception e) eqn:E; cbn [fst].
    + split; [split; [discriminate | intros (v & H); discriminate]|].
      split; [split; [intros _; exists e; auto | reflexivity]|].
      split; [discriminate|]. intros e' H _. injection H as <-. reflexivity.
    + split; [split; [discriminate | intros (v & H); discriminate]|].
      split; [split; [discriminate|]|].
      * intros (e' & H & H'). injection H as <-. congruence.
      * split; [intros e' H H'; injection H' as <-; congruence|].
        intros e' H H'. injection H as <-. congruence.
Qed.

(** The initializers of the test-suite. *)
Example run_initializer_stores_initarg :
  run_initializer test_call (PyFunc "initializer") (PyTuple [PyInt 1]) 0%Z []
  = (Return true, (1%Z, [])).
Proof. reflexivity. Qed.

Example run_initializer_broken :
  run_initializer test_call (PyFunc "broken_initializer") (PyTuple []) 0%Z []
  = (Return false, (0%Z, [OtherException "Exception" "BOOM!"])).
Proof. reflexivity. Qed.

Example run_initializer_exit :
  run_initializer test_call (PyFunc "sys.exit") (PyTuple [PyInt 1]) 0%Z []
  = (Raise (NonException "SystemExit"), (0%Z, [])).
Proof. reflexivity. Qed.

(** ** Shutdown *)

Lemma wait_loop_cons (t : option Q) (tick : Q) (p : Poll) (rest : list Poll)
  (w : World) :
  wait_loop t tick (p :: rest) w
  = if state_in (pool_state (polled p w)) [CLOSED; RUNNING] then
      if expired t tick (now p) then Some (Raise TimedOut, polled p w)
      else if negb (Nat.eqb (unfinished_tasks (pool_queue (polled p w))) 0)
           then wait_loop t tick rest (polled p w)
           else Some (Return tt, polled p w)
    else Some (Return tt, polled p w).
Proof.
  cbn [wait_loop]. unfold bind at 1, consumers_left at 1, modify at 1.
  rewrite active_eq. unfold polled, consumers_left, modify. cbn [snd].
  destruct (state_in _ _); reflexivity.
Qed.

(** A turn of the loop on a CLOSED pool: the pool stays CLOSED, or goes to
    ERROR when a loop is not alive. *)
Lemma polled_closed (p : Poll) (w : World) :
  pool_state w = CLOSED ->
  pool_state (polled p w)
  = (if forallb (is_alive p) (_loops (self w)) then CLOSED else ERROR)
  /\ _loops (self (polled p w)) = _loops (self w)
  /\ unfinished_tasks (pool_queue (polled p w)) = unfinished p.
Proof.
  intro H. unfold polled. rewrite refresh_eq.
  unfold start_if_created, consumers_left, modify. cbn [snd].
  change (pool_state (assign_queue
            {| queue := queue (pool_queue w);
               unfinished_tasks := unfinished p |} w))
    with (pool_state w).
  rewrite H. cbn [state_eqb state_code Z.eqb]. unfold mark_dead, all_alive.
  change (_loops (self (assign_queue
            {| queue := queue (pool_queue w);
               unfinished_tasks := unfinished p |} w)))
    with (_loops (self w)).
  destruct (forallb (is_alive p) (_loops (self w)));
    repeat split; exact H.
Qed.

(** While the turns sleep, the loop goes on. *)
Lemma wait_loop_sleeps (t : option Q) (tick : Q) (pre : list Poll) :
  forall w : World,
  pool_state w = CLOSED ->
  forallb (sleeps t tick (_loops (self w))) pre = true ->
  exists w1 : World,
    pool_state w1 = CLOSED
    /\ _loops (self w1) = _loops (self w)
    /\ forall rest, wait_loop t tick (pre ++ rest) w = wait_loop t tick rest w1.
Proof.
  induction pre as [|p pre IH]; intros w Hc Hs.
  - exists w. repeat split. exact Hc.
  - cbn [forallb] in Hs. apply andb_true_iff in Hs. destruct Hs as [Hp Hs].
    unfold sleeps in Hp. apply andb_true_iff in Hp. destruct Hp as [Hp Hu].
    apply andb_true_iff in Hp. destruct Hp as [Ha He].
    apply negb_true_iff in He.
    destruct (polled_closed p w Hc) as (H1 & H2 & H3). rewrite Ha in H1.
    rewrite <- H2 in Hs. destruct (IH (polled p w) H1 Hs) as (w1 & I1 & I2 & I3).
    exists w1. split; [exact I1|]. split; [congruence|]. intro rest.
    rewrite <- app_comm_cons, wait_loop_cons, H1, He, H3, Hu.
    cbn [state_in existsb state_eqb state_code Z.eqb orb]. apply I3.
Qed.

(** The turn that does not sleep ends the loop. *)
Lemma wait_loop_exit (t : option Q) (tick : Q) (p : Poll) (rest : list Poll)
  (w : World) :
  pool_state w = CLOSED ->
  sleeps t tick (_loops (self w)) p = false ->
  wait_loop t tick (p :: rest) w
  = if forallb (is_alive p) (_loops (self w)) && expired t tick (now p)
    then Some (Raise TimedOut, polled p w)
    else Some (Return tt, polled p w).
Proof.
  intros Hc Hs. destruct (polled_closed p w Hc) as (H1 & _ & H3).
  rewrite wait_loop_cons, H1, H3. unfold sleeps in Hs.
  destruct (forallb (is_alive p) (_loops (self w))); [|reflexivity].
  cbn [state_in existsb state_eqb state_code Z.eqb orb andb] in *.
  destruct (expired t tick (now p)); [reflexivity|].
  cbn [negb andb] in Hs. rewrite Hs. reflexivity.
Qed.

Lemma join_eq (t : option Q) (envs : list Wait) (w : World) :
  join t envs w
  = if state_eqb (pool_state w) RUNNING then
      Some (Raise PoolStillRunning, w)
    else if state_eqb (pool_state w) CLOSED then
      match envs with
      | [] => None
      | env :: rest =>
          match _wait_queue_depletion t env w with
          | None => None
          | Some (Raise e, w') => Some (Raise e, w')
          | Some (Return _, w') => join None rest (snd (stop w'))
          end
      end
    else Some (_stop_pool w).
Proof. destruct envs; reflexivity. Qed.

Lemma join_running (t : option Q) (envs : list Wait) (w : World) :
  pool_state w = RUNNING -> join t envs w = Some (Raise PoolStillRunning, w).
Proof. intro H. rewrite join_eq, H. reflexivity. Qed.

Lemma join_stops (t : option Q) (envs : list Wait) (w : World) :
  pool_state w <> RUNNING -> pool_state w <> CLOSED ->
  join t envs w = Some (_stop_pool w).
Proof.
  intros H1 H2. rewrite join_eq.
  destruct (pool_state w); try congruence; reflexivity.
Qed.

Lemma join_closed (t : option Q) (env : Wait) (rest : list Wait) (w : World) :
  pool_state w = CLOSED ->
  join t (env :: rest) w
  = match _wait_queue_depletion t env w with
    | None => None
    | Some (Raise e, w') => Some (Raise e, w')
    | Some (Return _, w') => Some (_stop_pool (snd (stop w')))
    end.
Proof.
  intro H. rewrite join_eq, H. cbn [state_eqb state_code Z.eqb].
  destruct (_wait_queue_depletion t env w) as [[[u | e] w']|]; try reflexivity.
  apply join_stops; discriminate.
Qed.

Lemma expired_iff (t : option Q) (tick now : Q) :
  expired t tick now = true <-> exists t', t = Some t' /\ (t' < now - tick)%Q.
Proof.
  destruct t as [t'|]; cbn [expired].
  - rewrite Qgtb_lt. split.
    + intro H. exists t'. split; [reflexivity | exact H].
    + intros (t'' & E & H). injection E as <-. exact H.
  - split; [discriminate | intros (t' & E & _); discriminate].
Qed.



(** ** The state machine *)

Lemma refresh_started (a : Loop -> bool) (w : World) :
  pool_state w <> CREATED ->
  pool_state (refresh a w) = if all_alive a w then pool_state w else ERROR.
Proof.
  intro H. rewrite refresh_state.
  assert (Es : start_if_created w = w).
  { unfold start_if_created.
    destruct (pool_state w); try congruence; reflexivity. }
  rewrite Es. destruct (pool_state w); try congruence; reflexivity.
Qed.

Lemma refresh_past_running (a : Loop -> bool) (w : World) :
  past_running (pool_state w) -> past_running (pool_state (refresh a w)).
Proof.
  intros [H1 H2]. rewrite (refresh_started a w H1).
  destruct (all_alive a w); split; congruence.
Qed.

Lemma schedule_state (a : Loop -> bool) (f x k : PyObj) (t : Q) (w : World) :
  pool_state (snd (schedule a f x k t w)) = pool_state (refresh a w).
Proof.
  rewrite schedule_eq.
  destruct (pool_state (refresh a w)) eqn:E; cbn [snd];
    rewrite ?enqueued_state; exact E.
Qed.

Lemma active_state (a : Loop -> bool) (w : World) :
  pool_state (snd (active a w)) = pool_state (refresh a w).
Proof. rewrite active_eq. reflexivity. Qed.

Lemma polled_past_running (p : Poll) (w : World) :
  past_running (pool_state w) -> past_running (pool_state (polled p w)).
Proof. intro H. unfold polled. apply refresh_past_running. exact H. Qed.

Lemma wait_loop_past_running (t : option Q) (t0 : Q) (ps : list Poll) :
  forall (w : World) (r : Result unit) (w' : World),
  past_running (pool_state w) ->
  wait_loop t t0 ps w = Some (r, w') ->
  past_running (pool_state w').
Proof.
  induction ps as [|p ps IH]; intros w r w' Hw E; [discriminate|].
  rewrite wait_loop_cons in E.
  pose proof (polled_past_running p w Hw) as Hp.
  destruct (state_in (pool_state (polled p w)) [CLOSED; RUNNING]).
  - destruct (expired t t0 (now p)).
    + injection E as _ <-. exact Hp.
    + destruct (negb (unfinished_tasks (pool_queue (polled p w)) =? 0)).
      * exact (IH _ _ _ Hp E).
      * injection E as _ <-. exact Hp.
  - injection E as _ <-. exact Hp.
Qed.

Lemma join_past_running (t : option Q) (envs : list Wait) (w : World)
  (r : Result unit) (w' : World) :
  past_running (pool_state w) ->
  join t envs w = Some (r, w') ->
  past_running (pool_state w').
Proof.
  intros Hw E.
  assert (Hs : pool_state w = CLOSED
               \/ pool_state w <> RUNNING /\ pool_state w <> CLOSED).
  { destruct Hw as [_ H]. destruct (pool_state w);
      try congruence; (left; reflexivity) || (right; split; discriminate). }
  destruct Hs as [S | [H1 H2]].
  - destruct envs as [|env rest]; [rewrite join_eq, S in E; discriminate|].
    rewrite (join_closed _ _ _ _ S) in E. unfold _wait_queue_depletion in E.
    destruct (wait_loop t (tick env) (polls env) w) as [[[u | e] w1]|] eqn:W;
      [| |discriminate].
    + injection E as _ <-. split; discriminate.
    + injection E as _ <-. exact (wait_loop_past_running _ _ _ _ _ _ Hw W).
  - rewrite (join_stops _ _ _ H1 H2) in E. injection E as _ <-. exact Hw.
Qed.

Lemma after_past_running (c : Call) (w w' : World) :
  past_running (pool_state w) ->
  after c w = Some w' ->
  past_running (pool_state w').
Proof.
  intros Hw E. destruct c as [a f x k t| | |t envs|a]; cbn [after] in E.
  - injection E as <-. rewrite schedule_state.
    apply refresh_past_running. exact Hw.
  - injection E as <-. split; discriminate.
  - injection E as <-. split; discriminate.
  - destruct (join t envs w) as [[r w1]|] eqn:J; [|discriminate].
    injection E as <-. exact (join_past_running _ _ _ _ _ Hw J).
  - injection E as <-. rewrite active_state.
    apply refresh_past_running. exact Hw.
Qed.

Lemma after_all_past_running (cs : list Call) :
  forall w w' : World,
  past_running (pool_state w) ->
  after_all cs w = Some w' ->
  past_running (pool_state w').
Proof.
  induction cs as [|c cs IH]; intros w w' Hw E; cbn [after_all] in E.
  - injection E as <-. exact Hw.
  - destruct (after c w) as [w1|] eqn:A; [|discriminate].
    exact (IH _ _ (after_past_running _ _ _ Hw A) E).
Qed.

Lemma schedule_past_running (a : Loop -> bool) (f x k : PyObj) (t : Q)
  (w : World) :
  past_running (pool_state w) ->
  (schedule a f x k t w = (Raise PoolError, refresh a w)
   \/ schedule a f x k t w = (Raise PoolNotActive, refresh a w))
  /\ pool_queue (snd (schedule a f x k t w)) = pool_queue w.
Proof.
  intro Hw. destruct (refresh_past_running a w Hw) as [H1 H2].
  rewrite schedule_eq.
  destruct (pool_state (refresh a w)); try congruence; cbn [snd];
    rewrite refresh_queue; auto.
Qed.

(** C3, as stated, fails: [close()] on a STOPPED pool makes it CLOSED. *)
Lemma close_reopens_a_stopped_pool :
  pool_state stopped_pool = STOPPED
  /\ after call_close stopped_pool = Some reclosed_pool
  /\ pool_state reclosed_pool = CLOSED
  /\ ~ (forall (w : World) (c : Call) (w' : World),
          pool_state w = STOPPED \/ pool_state w = ERROR ->
          after c w = Some w' ->
          pool_state w' = pool_state w).
Proof.
  split; [reflexivity|]. split; [reflexivity|]. split; [reflexivity|].
  intro H.
  specialize (H stopped_pool call_close reclosed_pool (or_introl eq_refl)
                eq_refl).
  discriminate H.
Qed.

(** C3, amended: once the state is STOPPED or ERROR, every public
    operation returns or raises at once, and the state it leaves is:
    CLOSED after [close], STOPPED after [stop] (both assign without
    looking at the state), the state unchanged after [join], and after
    [schedule] or [active] the state unchanged when the loops are alive
    and ERROR when one is not.  No sequence of public operations brings
    the state back to CREATED or RUNNING. *)
Theorem stopped_and_error_never_run_again (w : World) (c : Call)
  (cs : list Call) (w'' : World) :
  pool_state w = STOPPED \/ pool_state w = ERROR ->
  (exists w',
     after c w = Some w'
     /\ pool_state w'
        = match c with
          | call_close => CLOSED
          | call_stop => STOPPED
          | call_join _ _ => pool_state w
          | call_schedule a _ _ _ _ | call_active a =>
              if all_alive a w then pool_state w else ERROR
          end)
  /\ (after_all cs w = Some w'' ->
        pool_state w'' <> CREATED /\ pool_state w'' <> RUNNING).
Proof.
  intro Hs.
  assert (Hc : pool_state w <> CREATED) by (destruct Hs; congruence).
  assert (Hr : pool_state w <> RUNNING) by (destruct Hs; congruence).
  assert (Hd : pool_state w <> CLOSED) by (destruct Hs; congruence).
  split.
  - destruct c as [a f x k t| | |t envs|a]; cbn [after].
    + eexists. split; [reflexivity|].
      rewrite schedule_state. apply refresh_started. exact Hc.
    + eexists. split; reflexivity.
    + eexists. split; reflexivity.
    + rewrite (join_stops _ _ _ Hr Hd). eexists. split; reflexivity.
    + eexists. split; [reflexivity|].
      rewrite active_state. apply refresh_started. exact Hc.
  - intro E. exact (after_all_past_running cs w w'' (conj Hc Hr) E).
Qed.

Lemma stopped_and_error_never_run_again_witness :
  (exists w',
     after (call_active task_manager_died) joined_pool = Some w'
     /\ pool_state w' = ERROR)
  /\ (exists w',
        after (call_join None []) broken_pool = Some w'
        /\ pool_state w' = ERROR).
Proof.
  split.
  - apply (stopped_and_error_never_run_again joined_pool
             (call_active task_manager_died) [] joined_pool).
    left. reflexivity.
  - apply (stopped_and_error_never_run_again broken_pool
             (call_join None []) [] broken_pool).
    right. reflexivity.
Defined.

(** C6: [close] twice leaves what [close] once leaves, a CLOSED pool, and
    [stop] twice what [stop] once leaves, a STOPPED pool.  After [close]
    the state is not RUNNING, and whatever public operations follow, every
    later [schedule] raises (the pool error or the not-active error) and
    enqueues nothing. *)
Theorem close_and_stop_are_idempotent (w : World) (cs : list Call)
  (w' : World) (a : Loop -> bool) (f x k : PyObj) (t : Q) :
  snd (close (snd (close w))) = snd (close w)
  /\ pool_state (snd (close w)) = CLOSED
  /\ snd (stop (snd (stop w))) = snd (stop w)
  /\ pool_state (snd (stop w)) = STOPPED
  /\ pool_state (snd (close w)) <> RUNNING
  /\ (after_all cs (snd (close w)) = Some w' ->
        (fst (schedule a f x k t w') = Raise PoolError
         \/ fst (schedule a f x k t w') = Raise PoolNotActive)
        /\ pool_queue (snd (schedule a f x k t w')) = pool_queue w').
Proof.
  repeat (split; [reflexivity || discriminate|]).
  intro E.
  assert (Hw : past_running (pool_state w')).
  { apply (after_all_past_running cs (snd (close w)) w'); [|exact E].
    split; discriminate. }
  destruct (schedule_past_running a f x k t w' Hw) as [[H | H] Hq];
    rewrite H; cbn [fst snd]; rewrite H in Hq; auto.
Qed.

Lemma close_and_stop_are_idempotent_witness :
  (fst (schedule everything_alive (PyFunc "function") (PyTuple [PyInt 1])
          (PyDict []) 0 draining_pool) = Raise PoolError
   \/ fst (schedule everything_alive (PyFunc "function") (PyTuple [PyInt 1])
             (PyDict []) 0 draining_pool) = Raise PoolNotActive)
  /\ pool_queue
       (snd (schedule everything_alive (PyFunc "function")
               (PyTuple [PyInt 1]) (PyDict []) 0 draining_pool))
     = pool_queue draining_pool.
Proof.
  apply (close_and_stop_are_idempotent running_pool
           [call_active everything_alive] draining_pool).
  reflexivity.
Defined.

(** * The methods for every subclass *)

(** ** The refresh and the hooks *)

Lemma start_if_created_started (w : World) :
  pool_state w <> CREATED -> start_if_created w = w.
Proof.
  intro H. unfold start_if_created.
  destruct (pool_state w); try congruence; reflexivity.
Qed.

(** On a CREATED pool the refresh runs the hook and then inspects the loops
    that the hook has left. *)
Lemma Base_update_created (S : M unit) (a : Loop -> bool) (w : World) :
  pool_state w = CREATED ->
  Base._update_pool_state S a w
  = match S w with
    | (Return _, w1) => (Return tt, mark_dead a w1)
    | (Raise e, w1) => (Raise e, w1)
    end.
Proof.
  intro H. unfold Base._update_pool_state.
  unfold bind at 1, get at 1. unfold bind at 1. rewrite H.
  cbn [state_eqb state_code Z.eqb].
  destruct (S w) as [[u | e] w1]; [|reflexivity].
  unfold bind at 1, get at 1. rewrite for_each_loops. reflexivity.
Qed.

(** On any other pool the hook is not run. *)
Lemma Base_update_started (S : M unit) (a : Loop -> bool) (w : World) :
  pool_state w <> CREATED ->
  Base._update_pool_state S a w = (Return tt, mark_dead a w).
Proof.
  intro H. unfold Base._update_pool_state.
  unfold bind at 1, get at 1. unfold bind at 1.
  destruct (state_eqb (pool_state w) CREATED) eqn:E.
  - apply state_eqb_eq in E. congruence.
  - unfold ret at 1. unfold bind at 1, get at 1.
    rewrite for_each_loops. reflexivity.
Qed.

Lemma Base_update_model (S : M unit) (a : Loop -> bool) (w : World) :
  pool_state w <> CREATED ->
  Base._update_pool_state S a w = _update_pool_state a w.
Proof.
  intro H. rewrite (Base_update_started S a w H), update_pool_state_eq.
  rewrite (start_if_created_started w H). reflexivity.
Qed.

Lemma Base_check_model (S : M unit) (a : Loop -> bool) (w : World) :
  pool_state w <> CREATED ->
  Base._check_pool_state S a w = _check_pool_state a w.
Proof.
  intro H. unfold Base._check_pool_state, _check_pool_state.
  unfold bind at 1 3. rewrite (Base_update_model S a w H). reflexivity.
Qed.

Lemma Base_schedule_model (S : M unit) (a : Loop -> bool) (f x k : PyObj)
  (t : Q) (w : World) :
  pool_state w <> CREATED ->
  Base.schedule S a f x k t w = schedule a f x k t w.
Proof.
  intro H. unfold Base.schedule, schedule.
  unfold bind at 1 5. rewrite (Base_check_model S a w H). reflexivity.
Qed.

Lemma Base_active_model (S : M unit) (a : Loop -> bool) (w : World) :
  pool_state w <> CREATED ->
  Base.active S a w = active a w.
Proof.
  intro H. unfold Base.active, active.
  unfold bind at 1 3. rewrite (Base_update_model S a w H). reflexivity.
Qed.

(** The methods of the claims are those of the subclass whose hooks are the
    modelled ones. *)
Lemma Base_update_modelled (a : Loop -> bool) (w : World) :
  Base._update_pool_state _start_pool a w = _update_pool_state a w.
Proof. reflexivity. Qed.

(** X1: on a pool that is not CREATED, the state refresh, the state check,
    [schedule] and [active] do not run [_start_pool]: what they return and
    the world they leave are the same whatever the subclass's hook is. *)
Theorem started_pool_is_not_started_again (S S' : M unit)
  (a : Loop -> bool) (f x k : PyObj) (t : Q) (w : World) :
  pool_state w <> CREATED ->
  Base._update_pool_state S a w = Base._update_pool_state S' a w
  /\ Base._check_pool_state S a w = Base._check_pool_state S' a w
  /\ Base.schedule S a f x k t w = Base.schedule S' a f x k t w
  /\ Base.active S a w = Base.active S' a w.
Proof.
  intro H.
  rewrite !(Base_update_model _ a w H), !(Base_check_model _ a w H),
    !(Base_schedule_model _ a f x k t w H), !(Base_active_model _ a w H).
  repeat split.
Qed.

Lemma started_pool_is_not_started_again_witness :
  Base.schedule Abstract._start_pool everything_alive (PyFunc "function")
    (PyTuple [PyInt 1]) (PyDict []) 0 running_pool
  = Base.schedule _start_pool everything_alive (PyFunc "function")
      (PyTuple [PyInt 1]) (PyDict []) 0 running_pool.
Proof.
  apply (started_pool_is_not_started_again Abstract._start_pool _start_pool
           everything_alive (PyFunc "function") (PyTuple [PyInt 1])
           (PyDict []) 0 running_pool).
  discriminate.
Defined.

(** X2: on a CREATED pool the refresh runs [_start_pool] first.  When the
    hook raises, the exception leaves the refresh, the state check,
    [schedule] and [active] as it is, with the world as the hook left it:
    no loop is inspected, no future is allocated and nothing is enqueued.
    When the hook returns, the loops inspected are the ones it has left. *)
Theorem start_hook_runs_first (S : M unit) (a : Loop -> bool)
  (f x k : PyObj) (t : Q) (w : World) :
  pool_state w = CREATED ->
  (forall e w1, S w = (Raise e, w1) ->
     Base._update_pool_state S a w = (Raise e, w1)
     /\ Base._check_pool_state S a w = (Raise e, w1)
     /\ Base.schedule S a f x k t w = (Raise e, w1)
     /\ Base.active S a w = (Raise e, w1))
  /\ (forall u w1, S w = (Return u, w1) ->
        Base._update_pool_state S a w
        = (Return tt,
           if forallb a (_loops (self w1)) then w1 else assign_state ERROR w1)).
Proof.
  intro H. split.
  - intros e w1 E.
    assert (U : Base._update_pool_state S a w = (Raise e, w1))
      by (rewrite (Base_update_created S a w H), E; reflexivity).
    assert (C : Base._check_pool_state S a w = (Raise e, w1))
      by (unfold Base._check_pool_state; unfold bind at 1; rewrite U;
          reflexivity).
    repeat split; try assumption.
    + unfold Base.schedule. unfold bind at 1. rewrite C. reflexivity.
    + unfold Base.active. unfold bind at 1. rewrite U. reflexivity.
  - intros u w1 E. rewrite (Base_update_created S a w H), E. reflexivity.
Qed.

Lemma start_hook_runs_first_witness :
  Base.schedule Abstract._start_pool everything_alive (PyFunc "function")
    (PyTuple [PyInt 1]) (PyDict []) 0 fresh_pool
  = (Raise (NotImplementedError "Not implemented"), fresh_pool).
Proof.
  apply (proj1 (start_hook_runs_first Abstract._start_pool everything_alive
                  (PyFunc "function") (PyTuple [PyInt 1]) (PyDict []) 0
                  fresh_pool eq_refl)
           (NotImplementedError "Not implemented") fresh_pool).
  reflexivity.
Defined.

(** ** The wait and the join *)

Lemma Base_wait_loop_cons (S : M unit) (t : option Q) (t0 : Q) (p : Poll)
  (rest : list Poll) (w : World) :
  pool_state w <> CREATED ->
  Base.wait_loop S t t0 (p :: rest) w
  = if state_in (pool_state (polled p w)) [CLOSED; RUNNING] then
      if expired t t0 (now p) then Some (Raise TimedOut, polled p w)
      else if negb (Nat.eqb (unfinished_tasks (pool_queue (polled p w))) 0)
           then Base.wait_loop S t t0 rest (polled p w)
           else Some (Return tt, polled p w)
    else Some (Return tt, polled p w).
Proof.
  intro H. cbn [Base.wait_loop].
  unfold bind at 1, consumers_left at 1, modify at 1.
  rewrite Base_active_model by exact H.
  rewrite active_eq. unfold polled, consumers_left, modify. cbn [snd].
  destruct (state_in _ _); reflexivity.
Qed.

(** The wait of a started pool does not run [_start_pool]. *)
Lemma Base_wait_loop_model (S : M unit) (t : option Q) (t0 : Q)
  (ps : list Poll) :
  forall w : World,
  pool_state w <> CREATED ->
  Base.wait_loop S t t0 ps w = wait_loop t t0 ps w.
Proof.
  induction ps as [|p ps IH]; intros w H; [reflexivity|].
  rewrite (Base_wait_loop_cons S t t0 p ps w H), wait_loop_cons.
  rewrite IH by (unfold polled; apply refresh_never_created).
  reflexivity.
Qed.

Lemma Base_join_eq (S T : M unit) (t : option Q) (envs : list Wait)
  (w : World) :
  Base.join S T t envs w
  = if state_eqb (pool_state w) RUNNING then
      Some (Raise PoolStillRunning, w)
    else if state_eqb (pool_state w) CLOSED then
      match envs with
      | [] => None
      | env :: rest =>
          match wait_loop t (tick env) (polls env) w with
          | None => None
          | Some (Raise e, w') => Some (Raise e, w')
          | Some (Return _, w') => Some (T (snd (stop w')))
          end
      end
    else Some (T w).
Proof.
  destruct envs as [|env rest]; cbn [Base.join]; [reflexivity|].
  destruct (state_eqb (pool_state w) RUNNING); [reflexivity|].
  destruct (state_eqb (pool_state w) CLOSED) eqn:E; [|reflexivity].
  apply state_eqb_eq in E. unfold Base._wait_queue_depletion.
  rewrite Base_wait_loop_model by congruence.
  destruct (wait_loop t (tick env) (polls env) w) as [[[u | e] w']|];
    try reflexivity.
  destruct rest; reflexivity.
Qed.

(** What the wait of a CLOSED pool can come to. *)
Lemma wait_loop_closed_outcome (t : option Q) (t0 : Q) (ps : list Poll) :
  forall w : World,
  pool_state w = CLOSED ->
  wait_loop t t0 ps w = None
  \/ (exists t' w',
        t = Some t'
        /\ wait_loop t t0 ps w = Some (Raise TimedOut, w')
        /\ pool_state w' = CLOSED)
  \/ (exists w',
        wait_loop t t0 ps w = Some (Return tt, w')
        /\ (pool_state w' = CLOSED \/ pool_state w' = ERROR)).
Proof.
  induction ps as [|p ps IH]; intros w H; [left; reflexivity|].
  rewrite wait_loop_cons. destruct (polled_closed p w H) as (P1 & _ & _).
  destruct (forallb (is_alive p) (_loops (self w))); rewrite P1;
    cbn [state_in existsb state_eqb state_code Z.eqb orb].
  - destruct (expired t t0 (now p)) eqn:E.
    + right. left. apply expired_iff in E. destruct E as (t' & -> & _).
      exists t', (polled p w). repeat split. exact P1.
    + destruct (negb (unfinished_tasks (pool_queue (polled p w)) =? 0)).
      * apply IH. exact P1.
      * right. right. exists (polled p w). split; [reflexivity|].
        left. exact P1.
  - right. right. exists (polled p w). split; [reflexivity|].
    right. exact P1.
Qed.

(** The wait raises at a turn whose clock is past the timeout. *)
Lemma wait_loop_raises (t : option Q) (t0 : Q) (ps : list Poll) :
  forall (w : World) (e : PyExc) (w' : World),
  wait_loop t t0 ps w = Some (Raise e, w') ->
  e = TimedOut
  /\ exists t' p, t = Some t' /\ In p ps /\ (t' < now p - t0)%Q.
Proof.
  induction ps as [|p ps IH]; intros w e w' E; [discriminate|].
  rewrite wait_loop_cons in E.
  destruct (state_in (pool_state (polled p w)) [CLOSED; RUNNING]);
    [|discriminate].
  destruct (expired t t0 (now p)) eqn:X.
  - injection E as <- _. split; [reflexivity|].
    apply expired_iff in X. destruct X as (t' & -> & L).
    exists t', p. split; [reflexivity|]. split; [left; reflexivity | exact L].
  - destruct (negb (unfinished_tasks (pool_queue (polled p w)) =? 0));
      [|discriminate].
    destruct (IH _ _ _ E) as (-> & t' & q & -> & I & L).
    split; [reflexivity|]. exists t', q.
    split; [reflexivity|]. split; [right; exact I | exact L].
Qed.

(** X3: the class [BasePool] itself cannot run: on a CREATED pool its
    [schedule] and [active] raise [NotImplementedError] from [_start_pool],
    and on every pool that is neither RUNNING nor CLOSED (a CREATED pool
    among them) its [join] raises it from [_stop_pool]; each leaves the
    pool exactly as it was. *)
Theorem abstract_pool_is_not_implemented (S : M unit) (a : Loop -> bool)
  (f x k : PyObj) (t : Q) (timeout : option Q) (envs : list Wait)
  (w : World) :
  pool_state w = CREATED ->
  Base.schedule Abstract._start_pool a f x k t w
  = (Raise (NotImplementedError "Not implemented"), w)
  /\ Base.active Abstract._start_pool a w
     = (Raise (NotImplementedError "Not implemented"), w)
  /\ Base.join S Abstract._stop_pool timeout envs w
     = Some (Raise (NotImplementedError "Not implemented"), w)
  /\ (forall w' : World,
        pool_state w' <> RUNNING -> pool_state w' <> CLOSED ->
        Base.join S Abstract._stop_pool timeout envs w'
        = Some (Raise (NotImplementedError "Not implemented"), w')).
Proof.
  intro H.
  assert (J : forall w' : World,
            pool_state w' <> RUNNING -> pool_state w' <> CLOSED ->
            Base.join S Abstract._stop_pool timeout envs w'
            = Some (Raise (NotImplementedError "Not implemented"), w')).
  { intros w' H1 H2. rewrite Base_join_eq.
    destruct (pool_state w'); try congruence; reflexivity. }
  split; [|split; [|split]].
  - unfold Base.schedule, Base._check_pool_state, Base._update_pool_state.
    unfold bind, get. rewrite H. reflexivity.
  - unfold Base.active, Base._update_pool_state.
    unfold bind, get. rewrite H. reflexivity.
  - apply J; congruence.
  - exact J.
Qed.

Lemma abstract_pool_is_not_implemented_witness :
  Base.active Abstract._start_pool everything_alive fresh_pool
  = (Raise (NotImplementedError "Not implemented"), fresh_pool)
  /\ Base.join Abstract._start_pool Abstract._stop_pool None [] fresh_pool
     = Some (Raise (NotImplementedError "Not implemented"), fresh_pool).
Proof.
  destruct (abstract_pool_is_not_implemented Abstract._start_pool
              everything_alive PyNone PyNone PyNone 0 None [] fresh_pool
              eq_refl) as (_ & A & J & _).
  split; [exact A | exact J].
Defined.

(** X4: [join] and [__exit__] never run [_start_pool]: what they come to is
    the same whatever that hook is, for every pool, timeout and readings. *)
Theorem join_never_starts_the_pool (S S' T : M unit) (t : option Q)
  (envs : list Wait) (w : World) :
  Base.join S T t envs w = Base.join S' T t envs w
  /\ Base.__exit__ S T envs w = Base.__exit__ S' T envs w.
Proof.
  split.
  - rewrite !Base_join_eq. reflexivity.
  - unfold Base.__exit__. cbn [close modify].
    rewrite !Base_join_eq. reflexivity.
Qed.

(** X5: what [join] can come to, for every subclass.  It still waits (only
    on a CLOSED pool); or it raises the still-running error (only on a
    RUNNING pool, which it leaves as it is); or it raises the timeout error
    (only on a CLOSED pool and with a timeout given, and the pool stays
    CLOSED); or it is what [_stop_pool] comes to, and [_stop_pool] is run
    on a STOPPED pool when the pool was CLOSED and on the pool as it is
    otherwise, never on a RUNNING or CLOSED pool. *)
Theorem join_outcomes (S T : M unit) (t : option Q) (envs : list Wait)
  (w : World) :
  (pool_state w = CLOSED /\ Base.join S T t envs w = None)
  \/ (pool_state w = RUNNING
      /\ Base.join S T t envs w = Some (Raise PoolStillRunning, w))
  \/ (exists t' w',
        t = Some t' /\ pool_state w = CLOSED
        /\ Base.join S T t envs w = Some (Raise TimedOut, w')
        /\ pool_state w' = CLOSED)
  \/ (exists w1,
        pool_state w = CLOSED /\ pool_state w1 = STOPPED
        /\ Base.join S T t envs w = Some (T w1))
  \/ (pool_state w <> RUNNING /\ pool_state w <> CLOSED
      /\ Base.join S T t envs w = Some (T w)).
Proof.
  rewrite Base_join_eq. destruct (pool_state w) eqn:E;
    cbn [state_eqb state_code Z.eqb];
    try (right; right; right; right; repeat split; discriminate).
  - right. left. split; reflexivity.
  - destruct envs as [|env rest]; [left; split; reflexivity|].
    destruct (wait_loop_closed_outcome t (tick env) (polls env) w E)
      as [W | [(t' & w' & -> & W & C) | (w' & W & _)]]; rewrite W.
    + left. split; reflexivity.
    + right. right. left. exists t', w'. repeat split. exact C.
    + right. right. right. left. exists (snd (stop w')). repeat split.
Qed.

(** The readings reach a turn that does not sleep. *)
Lemma first_turn_awake (t : option Q) (t0 : Q) (l : list Loop)
  (ps : list Poll) :
  existsb (fun p => negb (sleeps t t0 l p)) ps = true ->
  exists pre p rest,
    ps = pre ++ p :: rest
    /\ forallb (sleeps t t0 l) pre = true
    /\ sleeps t t0 l p = false.
Proof.
  induction ps as [|q ps IH]; cbn [existsb]; [discriminate|].
  destruct (sleeps t t0 l q) eqn:E; cbn [negb orb].
  - intro H. destruct (IH H) as (pre & p & rest & -> & F & N).
    exists (q :: pre), p, rest. cbn [forallb]. rewrite E.
    repeat split; assumption.
  - intros _. exists [], q, ps. repeat split. exact E.
Qed.

(** X6: [__exit__] closes the pool and joins it without a timeout, whatever
    state the pool was in: it never raises the still-running error nor the
    timeout error.  Either it still waits for the queue, or it is what
    [_stop_pool] comes to on a STOPPED pool; and it is the latter as soon as
    the readings have a turn with a loop not alive or no task unfinished. *)
Theorem exit_closes_then_joins (S T : M unit) (envs : list Wait)
  (w : World) :
  (Base.__exit__ S T envs w = None
   \/ exists w1,
        pool_state w1 = STOPPED /\ Base.__exit__ S T envs w = Some (T w1))
  /\ (forall env rest,
        envs = env :: rest ->
        existsb (fun p => negb (sleeps None (tick env) (_loops (self w)) p))
          (polls env) = true ->
        exists w1,
          pool_state w1 = STOPPED
          /\ Base.__exit__ S T envs w = Some (T w1)).
Proof.
  assert (C : pool_state (snd (close w)) = CLOSED) by reflexivity.
  assert (X : Base.__exit__ S T envs w = Base.join S T None envs (snd (close w)))
    by reflexivity.
  rewrite X, Base_join_eq, C. cbn [state_eqb state_code Z.eqb]. split.
  - destruct envs as [|env rest]; [left; reflexivity|].
    destruct (wait_loop_closed_outcome None (tick env) (polls env) _ C)
      as [W | [(t' & w' & E & _) | (w' & W & _)]];
      [rewrite W; left; reflexivity | discriminate E |].
    rewrite W. right. exists (snd (stop w')). split; reflexivity.
  - intros env rest -> H.
    destruct (first_turn_awake _ _ _ _ H) as (pre & p & ps & E & F & N).
    destruct (wait_loop_sleeps None (tick env) pre (snd (close w)) C F)
      as (w0 & H0 & L0 & W).
    change (_loops (self (snd (close w)))) with (_loops (self w)) in L0.
    rewrite <- L0 in N.
    pose proof (wait_loop_exit None (tick env) p ps w0 H0 N) as J.
    cbn [expired] in J. rewrite andb_false_r in J.
    rewrite E, W, J. exists (snd (stop (polled p w0))). split; reflexivity.
Qed.

Lemma exit_closes_then_joins_witness :
  exists w1,
    pool_state w1 = STOPPED
    /\ Base.__exit__ _start_pool _stop_pool
         [mkWait 0 [busy_poll; idle_poll]] running_pool
       = Some (_stop_pool w1).
Proof.
  apply (proj2 (exit_closes_then_joins _start_pool _stop_pool
                  [mkWait 0 [busy_poll; idle_poll]] running_pool)
           (mkWait 0 [busy_poll; idle_poll]) [] eq_refl).
  reflexivity.
Defined.

(** X7: the wait of a pool that is not CREATED raises nothing but the
    timeout error, and raises it only when a timeout was given and a turn
    of the loop found the time waited greater than it; without a timeout
    it never raises. *)
Theorem wait_raises_only_the_timeout (S : M unit) (t : option Q)
  (env : Wait) (w : World) (e : PyExc) (w' : World) :
  pool_state w <> CREATED ->
  Base._wait_queue_depletion S t env w = Some (Raise e, w') ->
  e = TimedOut
  /\ exists t' p,
       t = Some t' /\ In p (polls env) /\ (t' < now p - tick env)%Q.
Proof.
  intros H E. unfold Base._wait_queue_depletion in E.
  rewrite (Base_wait_loop_model S t (tick env) (polls env) w H) in E.
  exact (wait_loop_raises _ _ _ _ _ _ E).
Qed.

Lemma wait_raises_only_the_timeout_witness :
  TimedOut = TimedOut
  /\ exists t' p,
       Some 5%Q = Some t'
       /\ In p (polls (mkWait 0 [busy_poll; late_poll]))
       /\ (t' < now p - tick (mkWait 0 [busy_poll; late_poll]))%Q.
Proof.
  apply (wait_raises_only_the_timeout Abstract._start_pool (Some 5%Q)
           (mkWait 0 [busy_poll; late_poll]) draining_pool TimedOut
           (polled late_poll (polled busy_poll draining_pool))).
  - discriminate.
  - reflexivity.
Defined.

(** X8: in the wait, the timeout is tested before the queue.  On a CLOSED
    pool whose loops are alive, a [join] whose first turn finds the time
    waited greater than the timeout raises the timeout error and leaves the
    pool CLOSED, however many tasks are unfinished, none included; with a
    negative timeout and a clock that does not run backwards this is
    always so. *)
Theorem timeout_is_tested_before_the_queue (S T : M unit) (t t0 : Q)
  (p : Poll) (rest : list Poll) (more : list Wait) (w : World) :
  pool_state w = CLOSED ->
  forallb (is_alive p) (_loops (self w)) = true ->
  ((t < now p - t0)%Q ->
     Base.join S T (Some t) (mkWait t0 (p :: rest) :: more) w
     = Some (Raise TimedOut, polled p w)
     /\ pool_state (polled p w) = CLOSED)
  /\ ((t < 0)%Q -> (t0 <= now p)%Q ->
        Base.join S T (Some t) (mkWait t0 (p :: rest) :: more) w
        = Some (Raise TimedOut, polled p w)).
Proof.
  intros H A.
  assert (G : (t < now p - t0)%Q ->
              Base.join S T (Some t) (mkWait t0 (p :: rest) :: more) w
              = Some (Raise TimedOut, polled p w)
              /\ pool_state (polled p w) = CLOSED).
  { intro L. destruct (polled_closed p w H) as (P1 & _ & _).
    rewrite A in P1. split; [|exact P1].
    rewrite Base_join_eq, H. cbn [state_eqb state_code Z.eqb tick polls].
    rewrite wait_loop_cons, P1.
    cbn [state_in existsb state_eqb state_code Z.eqb orb].
    assert (X : expired (Some t) t0 (now p) = true)
      by (apply expired_iff; exists t; split; [reflexivity | exact L]).
    rewrite X. reflexivity. }
  split; [exact G|]. intros N M. apply G.
  apply Qlt_le_trans with (y := 0%Q); [exact N|].
  apply (proj1 (Qle_minus_iff t0 (now p))). exact M.
Qed.

Lemma timeout_is_tested_before_the_queue_witness :
  Base.join _start_pool _stop_pool (Some (-1)%Q) [mkWait 0 [idle_poll]]
    draining_pool
  = Some (Raise TimedOut, polled idle_poll draining_pool).
Proof.
  apply (proj2 (timeout_is_tested_before_the_queue _start_pool _stop_pool
                  (-1)%Q 0%Q idle_poll [] [] draining_pool eq_refl eq_refl));
    [reflexivity | discriminate].
Defined.

Lemma expired_longer (t t' t0 n : Q) :
  (t <= t')%Q ->
  expired (Some t) t0 n = false -> expired (Some t') t0 n = false.
Proof.
  intros L E. destruct (expired (Some t') t0 n) eqn:E'; [|reflexivity].
  apply expired_iff in E'. destruct E' as (u & U & X). injection U as <-.
  assert (Y : expired (Some t) t0 n = true).
  { apply expired_iff. exists t. split; [reflexivity|].
    exact (Qle_lt_trans _ _ _ L X). }
  congruence.
Qed.

(** Unless the shorter timeout expires, the wait takes the same turns with
    a longer one and with none. *)
Lemma wait_loop_longer (t t' t0 : Q) (ps : list Poll) :
  (t <= t')%Q ->
  forall w : World,
  (exists w', wait_loop (Some t) t0 ps w = Some (Raise TimedOut, w'))
  \/ (wait_loop (Some t') t0 ps w = wait_loop (Some t) t0 ps w
      /\ wait_loop None t0 ps w = wait_loop (Some t) t0 ps w).
Proof.
  intro L. induction ps as [|p ps IH]; intro w;
    [right; split; reflexivity|].
  rewrite !wait_loop_cons.
  destruct (state_in (pool_state (polled p w)) [CLOSED; RUNNING]);
    [|right; split; reflexivity].
  destruct (expired (Some t) t0 (now p)) eqn:E.
  - left. exists (polled p w). reflexivity.
  - rewrite (expired_longer t t' t0 (now p) L E). cbn [expired].
    destruct (negb (unfinished_tasks (pool_queue (polled p w)) =? 0));
      [apply IH | right; split; reflexivity].
Qed.

(** X9: a timeout only ever turns an outcome of [join] into the timeout
    error.  Unless [join] with a timeout raises the timeout error, [join]
    with any longer timeout, and [join] without a timeout, come to the
    same result and the same pool on the same readings. *)
Theorem longer_timeout_same_outcome (S T : M unit) (t t' : Q)
  (envs : list Wait) (w : World) :
  (t <= t')%Q ->
  (exists w',
     pool_state w = CLOSED
     /\ Base.join S T (Some t) envs w = Some (Raise TimedOut, w'))
  \/ (Base.join S T (Some t') envs w = Base.join S T (Some t) envs w
      /\ Base.join S T None envs w = Base.join S T (Some t) envs w).
Proof.
  intro L. rewrite !Base_join_eq.
  destruct (pool_state w) eqn:E; cbn [state_eqb state_code Z.eqb];
    try (right; split; reflexivity).
  destruct envs as [|env rest]; [right; split; reflexivity|].
  destruct (wait_loop_longer t t' (tick env) (polls env) L w)
    as [(w' & W) | (W1 & W2)].
  - left. exists w'. rewrite W. split; reflexivity.
  - right. rewrite W1, W2. split; reflexivity.
Qed.

Lemma longer_timeout_same_outcome_witness :
  (exists w',
     pool_state draining_pool = CLOSED
     /\ Base.join _start_pool _stop_pool (Some 5%Q)
          [mkWait 0 [busy_poll; idle_poll]] draining_pool
        = Some (Raise TimedOut, w'))
  \/ (Base.join _start_pool _stop_pool (Some 9%Q)
        [mkWait 0 [busy_poll; idle_poll]] draining_pool
      = Base.join _start_pool _stop_pool (Some 5%Q)
          [mkWait 0 [busy_poll; idle_poll]] draining_pool
      /\ Base.join _start_pool _stop_pool None
           [mkWait 0 [busy_poll; idle_poll]] draining_pool
         = Base.join _start_pool _stop_pool (Some 5%Q)
             [mkWait 0 [busy_poll; idle_poll]] draining_pool).
Proof.
  apply (longer_timeout_same_outcome _start_pool _stop_pool 5%Q 9%Q
           [mkWait 0 [busy_poll; idle_poll]] draining_pool).
  discriminate.
Defined.



(** X14: [active] and [PoolContext.alive] agree on a pool that has been
    refreshed: whenever [active] answers true the context is alive, and
    unless the pool is left CREATED the answer of [active] is the value of
    [alive]. *)
Theorem active_agrees_with_alive (S : M unit) (a : Loop -> bool)
  (w : World) (b : bool) (w' : World) :
  Base.active S a w = (Return b, w') ->
  (b = true -> alive (_context (self w')) = true)
  /\ (pool_state w' <> CREATED -> b = alive (_context (self w'))).
Proof.
  unfold Base.active. unfold bind at 1.
  destruct (Base._update_pool_state S a w) as [[u | e] w1]; [|discriminate].
  unfold bind, get, ret. intro E. injection E as <- <-.
  unfold alive, pool_state.
  destruct (state (_context (self w1))); cbv; split; congruence.
Qed.

Lemma active_agrees_with_alive_witness :
  (true = true -> alive (_context (self (refresh everything_alive fresh_pool)))
                  = true)
  /\ (pool_state (refresh everything_alive fresh_pool) <> CREATED ->
      true = alive (_context (self (refresh everything_alive fresh_pool)))).
Proof.
  apply (active_agrees_with_alive _start_pool everything_alive fresh_pool).
  reflexivity.
Defined.

(** * Runs of calls *)

(** X10: a refresh writes nothing but the state, and the state only to
    mark an error: on a pool that is not CREATED it leaves the world as it
    is or only assigns ERROR.  Refreshing again with the same answers of
    the loops changes nothing more, so two queries of [active] in a row
    give the same answer. *)
Theorem refresh_is_idempotent (a : Loop -> bool) (w : World) :
  (pool_state w <> CREATED ->
     refresh a w = w \/ refresh a w = assign_state ERROR w)
  /\ refresh a (refresh a w) = refresh a w
  /\ active a (snd (active a w)) = active a w.
Proof.
  assert (F : pool_state w <> CREATED ->
              refresh a w = w \/ refresh a w = assign_state ERROR w).
  { intro H. rewrite refresh_eq, (start_if_created_started w H).
    unfold mark_dead. destruct (all_alive a w); auto. }
  assert (I : refresh a (refresh a w) = refresh a w).
  { rewrite (refresh_eq a (refresh a w)).
    rewrite (start_if_created_started _ (refresh_never_created a w)).
    rewrite (refresh_eq a w). unfold mark_dead.
    destruct (all_alive a (start_if_created w)) eqn:E.
    - rewrite E. reflexivity.
    - change (all_alive a (assign_state ERROR (start_if_created w)))
        with (all_alive a (start_if_created w)).
      rewrite E. reflexivity. }
  split; [exact F|]. split; [exact I|].
  rewrite !active_eq. cbn [snd]. rewrite I. reflexivity.
Qed.

Lemma refresh_is_idempotent_witness :
  refresh task_manager_died running_pool = running_pool
  \/ refresh task_manager_died running_pool
     = assign_state ERROR running_pool.
Proof.
  apply (refresh_is_idempotent task_manager_died running_pool).
  discriminate.
Defined.

(** Once the pool is past RUNNING, every call of a run is rejected and the
    run leaves the queue, the futures and the task counter alone. *)
Lemma rejected_run (rs : list Request) :
  forall w : World,
  past_running (pool_state w) ->
  exists errs : list PyExc,
    fst (submit_all rs w) = map Raise errs
    /\ Forall (fun e => e = PoolError \/ e = PoolNotActive) errs
    /\ futures (snd (submit_all rs w)) = futures w
    /\ pool_queue (snd (submit_all rs w)) = pool_queue w
    /\ _task_counter (self (snd (submit_all rs w)))
       = _task_counter (self w).
Proof.
  induction rs as [|r rs IH]; intros w P.
  - exists []. repeat split. constructor.
  - rewrite submit_all_cons. cbn [fst snd]. unfold submit at 1 2 3 4 5.
    pose proof (refresh_past_running (req_is_alive r) w P) as P'.
    destruct (IH _ P') as (errs & R & F & H1 & H2 & H3).
    destruct (schedule_past_running (req_is_alive r) (req_function r)
                (req_args r) (req_kwargs r) (req_timeout r) w P)
      as [[E | E] _]; rewrite E; cbn [fst snd]; rewrite R, H1, H2, H3;
      rewrite refresh_futures, refresh_queue, refresh_task_counter.
    + exists (PoolError :: errs). repeat split. constructor; auto.
    + exists (PoolNotActive :: errs). repeat split. constructor; auto.
Qed.

(** A run of [schedule] calls: the calls accepted come first, and each of
    them adds one future, one task and one identifier. *)
Lemma submit_all_run (rs : list Request) :
  forall w : World,
  exists (n : nat) (errs : list PyExc),
    fst (submit_all rs w)
    = map Return (seq (length (futures w)) n) ++ map Raise errs
    /\ Forall (fun e => e = PoolError \/ e = PoolNotActive) errs
    /\ length (filter returned (fst (submit_all rs w))) = n
    /\ futures (snd (submit_all rs w))
       = futures w ++ repeat Future.PENDING n
    /\ unfinished_tasks (pool_queue (snd (submit_all rs w)))
       = unfinished_tasks (pool_queue w) + n
    /\ _task_counter (self (snd (submit_all rs w)))
       = _task_counter (self w) + n
    /\ length (queue (pool_queue (snd (submit_all rs w))))
       = length (queue (pool_queue w)) + n.
Proof.
  induction rs as [|r rs IH]; intro w.
  - exists 0, []. cbn. rewrite app_nil_r, !Nat.add_0_r. repeat split.
    constructor.
  - set (w0 := refresh (req_is_alive r) w).
    assert (Hq : pool_queue w0 = pool_queue w) by apply refresh_queue.
    assert (Hc : _task_counter (self w0) = _task_counter (self w))
      by apply refresh_task_counter.
    assert (Hf : futures w0 = futures w) by apply refresh_futures.
    destruct (state_eqb (pool_state w0) RUNNING) eqn:E.
    + apply state_eqb_eq in E.
      set (w1 := enqueued (req_function r) (req_args r) (req_kwargs r)
                   (req_timeout r) w0).
      assert (S1 : submit r w = (Return (length (futures w)), w1))
        by (rewrite submit_eq; fold w0; rewrite E; reflexivity).
      assert (F1 : futures w1 = futures w ++ [Future.PENDING])
        by (unfold w1; rewrite enqueued_futures, Hf; reflexivity).
      assert (F2 : length (futures w1) = S (length (futures w)))
        by (rewrite F1, length_app, Nat.add_1_r; reflexivity).
      assert (Q1 : unfinished_tasks (pool_queue w1)
                   = S (unfinished_tasks (pool_queue w)))
        by (unfold w1; rewrite enqueued_queue, Hq; reflexivity).
      assert (Q2 : length (queue (pool_queue w1))
                   = S (length (queue (pool_queue w)))).
      { unfold w1. rewrite enqueued_queue, Hq. cbn [Queue_put queue].
        rewrite length_app, Nat.add_1_r. reflexivity. }
      assert (C1 : _task_counter (self w1) = S (_task_counter (self w)))
        by (unfold w1; rewrite enqueued_task_counter, Hc; reflexivity).
      destruct (IH w1) as (n & errs & R & F & L & H1 & H2 & H3 & H4).
      exists (S n), errs. rewrite submit_all_cons, S1. cbn [fst snd].
      rewrite H1, H2, H3, H4, F1, Q1, Q2, C1, R. rewrite R, F2 in L.
      rewrite F2. cbn [seq map app filter returned length].
      rewrite L, <- app_assoc. cbn [app repeat].
      repeat split; try lia. exact F.
    + apply state_eqb_neq in E.
      assert (P : past_running (pool_state w0))
        by (split; [apply refresh_never_created | exact E]).
      destruct (rejected_run rs w0 P) as (errs & R & F & H1 & H2 & H3).
      assert (S1 : exists e, (e = PoolError \/ e = PoolNotActive)
                             /\ submit r w = (Raise e, w0)).
      { rewrite submit_eq. fold w0.
        destruct (pool_state w0); try congruence; eauto. }
      destruct S1 as (e & Oe & S1).
      exists 0, (e :: errs). rewrite submit_all_cons, S1. cbn [fst snd].
      rewrite R, H1, H2, H3, Hf, Hq, Hc. cbn [seq map app filter returned repeat].
      rewrite app_nil_r, !Nat.add_0_r.
      repeat split; try (constructor; assumption).
      clear. induction errs; [reflexivity | assumption].
Qed.

(** X11: in a run of [schedule] calls on one pool, once a call is rejected
    every later call is rejected too: the results are those of the calls
    accepted, then only pool errors and not-active errors.  The futures
    returned are the consecutive references that follow the futures
    allocated before the run, so they are new and pairwise distinct. *)
Theorem accepted_calls_come_first (rs : list Request) (w : World) :
  exists (n : nat) (errs : list PyExc),
    fst (submit_all rs w)
    = map Return (seq (length (futures w)) n) ++ map Raise errs
    /\ Forall (fun e => e = PoolError \/ e = PoolNotActive) errs
    /\ n + length errs = length rs
    /\ NoDup (seq (length (futures w)) n)
    /\ Forall (fun fut => nth_error (futures w) fut = None)
         (seq (length (futures w)) n).
Proof.
  destruct (submit_all_run rs w) as (n & errs & R & F & _).
  exists n, errs. split; [exact R|]. split; [exact F|]. split; [|split].
  - assert (L : length (fst (submit_all rs w)) = length rs).
    { clear. revert w. induction rs as [|r rs IH]; intro w; [reflexivity|].
      rewrite submit_all_cons. cbn [fst length]. rewrite IH. reflexivity. }
    rewrite R, length_app, !length_map, length_seq in L. exact L.
  - apply seq_NoDup.
  - apply Forall_forall. intros fut I. apply in_seq in I.
    apply nth_error_None. lia.
Qed.

(** X12: over a run of [schedule] calls with [n] calls accepted, the pool
    allocates exactly [n] futures, all PENDING, after those it had, which
    it leaves as they were; the count of unfinished tasks, the length of
    the queue and the task counter each grow by [n]: a rejected call
    consumes no identifier. *)
Theorem run_bookkeeping (rs : list Request) (w : World) :
  futures (snd (submit_all rs w))
  = futures w
    ++ repeat Future.PENDING
         (length (filter returned (fst (submit_all rs w))))
  /\ unfinished_tasks (pool_queue (snd (submit_all rs w)))
     = unfinished_tasks (pool_queue w)
       + length (filter returned (fst (submit_all rs w)))
  /\ length (queue (pool_queue (snd (submit_all rs w))))
     = length (queue (pool_queue w))
       + length (filter returned (fst (submit_all rs w)))
  /\ _task_counter (self (snd (submit_all rs w)))
     = _task_counter (self w)
       + length (filter returned (fst (submit_all rs w))).
Proof.
  destruct (submit_all_run rs w) as (n & errs & _ & _ & L & H1 & H2 & H3 & H4).
  rewrite L. repeat split; assumption.
Qed.

Lemma extends_by_nothing (w w' : World) :
  queue (pool_queue w') = queue (pool_queue w) ->
  futures w' = futures w ->
  _task_counter (self w') = _task_counter (self w) ->
  extends_by [] w w'.
Proof.
  intros Q F C. unfold extends_by. cbn [length repeat map seq].
  rewrite Q, F, C, !app_nil_r, Nat.add_0_r. repeat split.
Qed.

Lemma extends_by_trans (t1 t2 : list Task) (w w1 w2 : World) :
  extends_by t1 w w1 -> extends_by t2 w1 w2 -> extends_by (t1 ++ t2) w w2.
Proof.
  intros (Q1 & F1 & C1 & I1) (Q2 & F2 & C2 & I2). unfold extends_by.
  rewrite Q2, Q1, F2, F1, C2, C1, map_app, I1, I2, C1.
  rewrite length_app, repeat_app, seq_app, <- !app_assoc.
  repeat split. lia.
Qed.

Lemma polled_extends (p : Poll) (w : World) : extends_by [] w (polled p w).
Proof.
  unfold polled. apply extends_by_nothing.
  - rewrite refresh_queue. reflexivity.
  - rewrite refresh_futures. reflexivity.
  - rewrite refresh_task_counter. reflexivity.
Qed.

Lemma wait_loop_extends (t : option Q) (t0 : Q) (ps : list Poll) :
  forall (w : World) (r : Result unit) (w' : World),
  wait_loop t t0 ps w = Some (r, w') -> extends_by [] w w'.
Proof.
  induction ps as [|p ps IH]; intros w r w' E; [discriminate|].
  rewrite wait_loop_cons in E. pose proof (polled_extends p w) as P.
  destruct (state_in (pool_state (polled p w)) [CLOSED; RUNNING]).
  - destruct (expired t t0 (now p)).
    + injection E as _ <-. exact P.
    + destruct (negb (unfinished_tasks (pool_queue (polled p w)) =? 0)).
      * exact (extends_by_trans [] [] _ _ _ P (IH _ _ _ E)).
      * injection E as _ <-. exact P.
  - injection E as _ <-. exact P.
Qed.

Lemma join_extends (t : option Q) (envs : list Wait) (w : World)
  (r : Result unit) (w' : World) :
  join t envs w = Some (r, w') -> extends_by [] w w'.
Proof.
  intro E.
  assert (Hs : pool_state w = RUNNING \/ pool_state w = CLOSED
               \/ pool_state w <> RUNNING /\ pool_state w <> CLOSED).
  { destruct (pool_state w); auto; right; right; split; discriminate. }
  destruct Hs as [R | [C | [H1 H2]]].
  - rewrite (join_running _ _ _ R) in E. injection E as _ <-.
    apply extends_by_nothing; reflexivity.
  - destruct envs as [|env rest]; [rewrite join_eq, C in E; discriminate|].
    rewrite (join_closed _ _ _ _ C) in E. unfold _wait_queue_depletion in E.
    destruct (wait_loop t (tick env) (polls env) w) as [[[u | e] w1]|] eqn:W;
      [| |discriminate]; pose proof (wait_loop_extends _ _ _ _ _ _ W) as X.
    + injection E as _ <-.
      apply (extends_by_trans [] [] _ _ _ X).
      apply extends_by_nothing; reflexivity.
    + injection E as _ <-. exact X.
  - rewrite (join_stops _ _ _ H1 H2) in E. injection E as _ <-.
    apply extends_by_nothing; reflexivity.
Qed.

Lemma after_extends (c : Call) (w w' : World) :
  after c w = Some w' ->
  exists tasks : list Task, length tasks <= 1 /\ extends_by tasks w w'.
Proof.
  intro E. destruct c as [a f x k t| | |t envs|a]; cbn [after] in E.
  - injection E as <-. rewrite schedule_eq.
    destruct (pool_state (refresh a w));
      try (exists []; split; [apply Nat.le_0_l|]; cbn [snd];
           apply extends_by_nothing;
           [rewrite refresh_queue | rewrite refresh_futures
            | rewrite refresh_task_counter]; reflexivity).
    exists [scheduled_task f x k t (refresh a w)]. split; [apply Nat.le_refl|].
    cbn [snd]. unfold extends_by.
    rewrite enqueued_queue, enqueued_futures, enqueued_task_counter.
    rewrite refresh_queue, refresh_futures, refresh_task_counter.
    unfold scheduled_task. rewrite refresh_task_counter.
    cbn [Queue_put queue length repeat map seq id Task__init__].
    rewrite Nat.add_1_r. repeat split.
  - injection E as <-. exists []. split; [apply Nat.le_0_l|].
    apply extends_by_nothing; reflexivity.
  - injection E as <-. exists []. split; [apply Nat.le_0_l|].
    apply extends_by_nothing; reflexivity.
  - destruct (join t envs w) as [[r w1]|] eqn:J; [|discriminate].
    injection E as <-. exists []. split; [apply Nat.le_0_l|].
    exact (join_extends _ _ _ _ _ J).
  - injection E as <-. exists []. split; [apply Nat.le_0_l|].
    rewrite active_eq. cbn [snd]. apply extends_by_nothing;
      [rewrite refresh_queue | rewrite refresh_futures
       | rewrite refresh_task_counter]; reflexivity.
Qed.

(** X15: no public operation removes, reorders or rewrites what is queued
    or allocated.  After any sequence of [schedule], [close], [stop],
    [join] and [active], the queue is the queue before followed by the new
    tasks, at most one for each call; the futures are those before
    followed by one PENDING future for each new task; and the new tasks
    carry the consecutive identifiers drawn from the task counter, also
    when other operations and rejected calls come in between.  [stop] in
    particular leaves the abandoned tasks in the queue. *)
Theorem operations_only_append (cs : list Call) (w w' : World) :
  after_all cs w = Some w' ->
  exists tasks : list Task,
    length tasks <= length cs /\ extends_by tasks w w'.
Proof.
  revert w. induction cs as [|c cs IH]; intros w E; cbn [after_all] in E.
  - injection E as <-. exists []. split; [apply Nat.le_refl|].
    apply extends_by_nothing; reflexivity.
  - destruct (after c w) as [w1|] eqn:A; [|discriminate].
    destruct (after_extends c w w1 A) as (t1 & L1 & X1).
    destruct (IH w1 E) as (t2 & L2 & X2).
    exists (t1 ++ t2). split; [|exact (extends_by_trans _ _ _ _ _ X1 X2)].
    rewrite length_app. cbn [length]. lia.
Qed.

Lemma operations_only_append_witness :
  exists tasks : list Task,
    length tasks <= 3
    /\ extends_by tasks fresh_pool
         (snd (stop (snd (schedule everything_alive (PyFunc "function")
                            (PyTuple [PyInt 1]) (PyDict []) 0
                            running_pool)))).
Proof.
  apply (operations_only_append
           [call_active everything_alive;
            call_schedule everything_alive (PyFunc "function")
              (PyTuple [PyInt 1]) (PyDict []) 0;
            call_stop]
           fresh_pool).
  reflexivity.
Defined.
